(** * pg-index-agents: the dashboard's job polling, Run All pipeline and API cache

    A shallow embedding of the client-side orchestration code of the
    dashboard:

    - [lib/api.ts]                   the [Job] record and the [ApiClient] requests;
    - [components/AgentPanel.tsx]    [pollJobStatus], [startAgentJob], [runAgent],
                                     [stopAnalysis], [runAllAgentsSequentially];
    - [app/databases/[id]/page.tsx]  [runAnalysis];
    - [app/activity/page.tsx]        [runningJobs];
    - [hooks/useJobPolling.ts]       [fetchJob] and the derived flags;
    - [hooks/useApi.ts]              the module-level [cache], [execute], [clearApiCache].

    Asynchronous functions are written in a small state-and-exception monad
    over the component's React state, an event trace and an await counter.
    The backend is an oracle ([World]) that answers each request. *)

From stdpp Require Import gmap strings list fin_maps pretty.

Local Open Scope string_scope.
Local Open Scope list_scope.
Local Open Scope Z_scope.

(** ** JavaScript values *)

(** The values a [Record<string, unknown>] field is read as by the summary
    templates of [pollJobStatus]; numbers are the integer counters the
    backend reports. *)
Inductive JsVal : Type :=
| JsUndefined
| JsNull
| JsBool (b : bool)
| JsNum (n : Z)
| JsStr (s : string).

(** [Boolean(v)]. *)
Definition truthy (v : JsVal) : bool :=
  match v with
  | JsUndefined | JsNull => false
  | JsBool b => b
  | JsNum n => negb (n =? 0)
  | JsStr s => negb (String.eqb s "")
  end.

(** [`${v}`]. *)
Definition toString (v : JsVal) : string :=
  match v with
  | JsUndefined => "undefined"
  | JsNull => "null"
  | JsBool true => "true"
  | JsBool false => "false"
  | JsNum n => pretty n
  | JsStr s => s
  end.

(** [a || b] on values. *)
Definition js_or (a b : JsVal) : JsVal := if truthy a then a else b.

(** [s || d] for [s : string | null]: [null] and the empty string are falsy. *)
Definition str_or (s : option string) (d : string) : string :=
  match s with
  | Some x => if String.eqb x "" then d else x
  | None => d
  end.

(** [if (s)] for [s : string | null | undefined]. *)
Definition str_truthy (s : option string) : bool :=
  match s with
  | Some x => negb (String.eqb x "")
  | None => false
  end.

(** What a [catch] clause receives: an [Error] with its message, or any
    other thrown value. *)
Inductive Thrown : Type :=
| JsError (message : string)
| JsOther.

(** [err instanceof Error ? err.message : fallback]. *)
Definition error_message (e : Thrown) (fallback : string) : string :=
  match e with
  | JsError m => m
  | JsOther => fallback
  end.

(** How an awaited promise settles. *)
Inductive Outcome (A : Type) : Type :=
| Ok (a : A)
| Throw (e : Thrown).
Arguments Ok {A} a.
Arguments Throw {A} e.

(** ** lib/api.ts *)

Module Api.

Inductive JobStatus : Type :=
| pending
| running
| completed
| failed
| cancelled.

#[global] Instance JobStatus_eq_dec : EqDecision JobStatus.
Proof. solve_decision. Defined.

Record Job : Type := mkJob {
  id : string;
  database_id : Z;
  agent : string;
  status : JobStatus;
  progress : Z;
  current_step : option string;
  total_steps : Z;
  started_at : option string;
  completed_at : option string;
  error : option string;
  result_json : option (gmap string JsVal);
  created_at : string
}.

(** The requests of [ApiClient] that the modelled components can issue. *)
Inductive Request : Type :=
| RunExplorerBackground (databaseId : Z)
| RunObserverBackground (databaseId : Z)
| RunArchitectBackground (databaseId : Z)
| RunGardenerBackground (databaseId : Z)
| RunPartitionerBackground (databaseId : Z)
| RunAllAgents (databaseId : Z)
| RunAllAgentsBackground (databaseId : Z)
| GetJob (jobId : string)
| CancelJob (jobId : string).

#[global] Instance Request_eq_dec : EqDecision Request.
Proof. solve_decision. Defined.

End Api.
Import Api.

(** The terminal statuses of a job. *)
Definition terminal (s : JobStatus) : bool :=
  match s with
  | completed | failed | cancelled => true
  | pending | running => false
  end.

(** The backend as the client sees it.  [startJob r] settles a
    [run*Background] request with the new [job_id]; [getJob j n] settles
    the [n]-th [getJob(j)] of a polling loop; [stopClick t] tells whether
    the user presses Stop while the panel is suspended at its [t]-th await. *)
Record World : Type := mkWorld {
  startJob : Request -> Outcome string;
  getJob : string -> nat -> Outcome Job;
  cancelJob : string -> Outcome unit;
  stopClick : nat -> bool
}.

(** ** app/activity/page.tsx and the flags of useJobPolling *)

(** [jobs.filter((j) => j.status === 'running' || j.status === 'pending')] *)
Definition runningJobs (jobs : list Job) : list Job :=
  filter (fun j => status j = running \/ status j = pending) jobs.

(** [job?.status === 'running' || job?.status === 'pending'] *)
Definition isRunning (job : option Job) : bool :=
  match job with
  | Some j => bool_decide (status j = running) || bool_decide (status j = pending)
  | None => false
  end.

(** [job?.status === 'completed'] *)
Definition isComplete (job : option Job) : bool :=
  match job with
  | Some j => bool_decide (status j = completed)
  | None => false
  end.

(** [job?.status === 'failed'] *)
Definition isFailed (job : option Job) : bool :=
  match job with
  | Some j => bool_decide (status j = failed)
  | None => false
  end.

(** ** Asynchronous code as a state-and-exception monad *)

(** [type AgentState = 'pending' | 'running' | 'success' | 'error'] of the
    agent panel (the job statuses above already use two of the names). *)
Module AgentState.
Inductive t : Type :=
| pending
| running
| success
| error.
End AgentState.

#[global] Instance AgentState_eq_dec : EqDecision AgentState.t.
Proof. solve_decision. Defined.

(** What the modelled code does to the outside, in order. *)
Inductive Event : Type :=
| Call (r : Request)                      (* a request sent through [ApiClient] *)
| Sleep (ms : Z)                          (* [await new Promise(r => setTimeout(r, ms))] *)
| StatusSet (agentId : string) (state : AgentState.t) (result : option string)
                                          (* [updateAgentStatus(agentId, state, result)] *)
| StopPressed                             (* the Stop button's [onClick] *)
| AnalysisComplete                        (* [onAnalysisComplete?.()] *)
| FetchData.                              (* [await fetchData()] of the database page *)

#[global] Instance Event_eq_dec : EqDecision Event.
Proof. solve_decision. Defined.

Section Async.
Context {C : Type}.

(** The component's state, the trace so far, and the number of awaits so far. *)
Record St : Type := mkSt {
  comp : C;
  trace : list Event;
  clock : nat
}.

Definition Async (A : Type) : Type := St -> Outcome A * St.

Definition ret {A} (a : A) : Async A := fun s => (Ok a, s).

Definition bind {A B} (m : Async A) (k : A -> Async B) : Async B :=
  fun s =>
    match m s with
    | (Ok a, s') => k a s'
    | (Throw e, s') => (Throw e, s')
    end.

(** [throw e] *)
Definition throw {A} (e : Thrown) : Async A := fun s => (Throw e, s).

(** Resume with the way a promise settled. *)
Definition settle {A} (o : Outcome A) : Async A := fun s => (o, s).

Definition emit (e : Event) : Async unit :=
  fun s => (Ok tt, mkSt (comp s) (trace s ++ [e]) (clock s)).

(** A [setState] call. *)
Definition modify (f : C -> C) : Async unit :=
  fun s => (Ok tt, mkSt (f (comp s)) (trace s) (clock s)).

(** [try { body } catch (error) { handler(error) } finally { cleanup }] *)
Definition try_catch_finally {A} (body : Async A) (handler : Thrown -> Async A)
    (cleanup : Async unit) : Async A :=
  fun s =>
    let '(o, s1) := match body s with
                    | (Ok a, s') => (Ok a, s')
                    | (Throw e, s') => handler e s'
                    end in
    match cleanup s1 with
    | (Ok _, s2) => (o, s2)
    | (Throw e, s2) => (Throw e, s2)
    end.

End Async.
Arguments St C : clear implicits.
Arguments Async C A : clear implicits.

Declare Scope async_scope.
Delimit Scope async_scope with async.
Notation "x <- m ;; k" := (bind m (fun x => k))
  (at level 100, m at next level, right associativity) : async_scope.
Notation "m ;; k" := (bind m (fun _ => k))
  (at level 100, right associativity) : async_scope.
Local Open Scope async_scope.

(** ** components/AgentPanel.tsx *)

Module AgentPanel.

Record AgentPanelProps : Type := mkProps {
  databaseId : Z;
  onAnalysisComplete : option (Outcome unit)
                                   (* the optional callback: how a call to it ends *)
}.

Record AgentStatus : Type := mkStatus {
  state : AgentState.t;
  result : option string
}.

(** An entry of the [agents] array (icon and colour classes left out). *)
Record AgentDef : Type := mkAgent {
  agent_id : string;
  name : string;
  description : string
}.

Definition agents : list AgentDef :=
  [ mkAgent "explorer" "Explorer" "Initial analysis, table classification, anomaly detection";
    mkAgent "observer" "Observer" "Continuous monitoring, metrics collection, signal detection";
    mkAgent "architect" "Architect" "Query analysis, index proposals with justifications";
    mkAgent "gardener" "Gardener" "Index health monitoring, maintenance scheduling";
    mkAgent "partitioner" "Partitioner"
            "Table partitioning analysis and recommendations (read-only)" ].

(** The [useState] cells of the component. *)
Record Panel : Type := mkPanel {
  agentStatus : gmap string AgentStatus;
  runningAll : bool;
  currentStep : Z;
  shouldStop : bool;
  currentJobId : option string
}.

Definition setAgentStatus (f : gmap string AgentStatus -> gmap string AgentStatus)
    (p : Panel) : Panel :=
  mkPanel (f (agentStatus p)) (runningAll p) (currentStep p) (shouldStop p) (currentJobId p).
Definition setRunningAll (b : bool) (p : Panel) : Panel :=
  mkPanel (agentStatus p) b (currentStep p) (shouldStop p) (currentJobId p).
Definition setCurrentStep (n : Z) (p : Panel) : Panel :=
  mkPanel (agentStatus p) (runningAll p) n (shouldStop p) (currentJobId p).
Definition setShouldStop (b : bool) (p : Panel) : Panel :=
  mkPanel (agentStatus p) (runningAll p) (currentStep p) b (currentJobId p).
Definition setCurrentJobId (j : option string) (p : Panel) : Panel :=
  mkPanel (agentStatus p) (runningAll p) (currentStep p) (shouldStop p) j.

(** The state of a freshly mounted panel. *)
Definition mounted : St Panel := mkSt (mkPanel ∅ false (-1) false None) [] 0.

Definition pollInterval : Z := 1000.
Definition maxAttempts : nat := 600.

(** The result summary of a completed job: each counter is read as
    [result.field || 0] inside a template literal. *)
Definition counter (result : gmap string JsVal) (field : string) : string :=
  toString (js_or (default JsUndefined (result !! field)) (JsNum 0)).

Definition summary (agentId : string) (result : gmap string JsVal) : string :=
  if String.eqb agentId "explorer" then
    counter result "anomalies_count" +:+ " anomalies found"
  else if String.eqb agentId "observer" then
    counter result "metrics_collected" +:+ " metrics, "
      +:+ counter result "signals_detected" +:+ " signals"
  else if String.eqb agentId "architect" then
    counter result "proposals_created" +:+ " proposals created"
  else if String.eqb agentId "gardener" then
    counter result "indexes_checked" +:+ " indexes, "
      +:+ counter result "tasks_count" +:+ " tasks"
  else if String.eqb agentId "partitioner" then
    counter result "recommendations_count" +:+ " recommendations"
  else "Completed".

Section Component.
Variable props : AgentPanelProps.
Variable w : World.

(** [updateAgentStatus]: a functional [setAgentStatus] that overwrites the
    agent's entry. *)
Definition updateAgentStatus (agentId : string) (st : AgentState.t)
    (res : option string) : Async Panel unit :=
  emit (StatusSet agentId st res);;
  modify (setAgentStatus (fun prev => <[agentId := mkStatus st res]> prev)).

(** [stopAnalysis], the Stop button's handler.  It reads [currentJobId]
    from the latest render; a failing cancel request is ignored. *)
Definition stopAnalysis : Async Panel unit :=
  emit StopPressed;;
  modify (setShouldStop true);;
  fun s =>
    match currentJobId (comp s) with
    | Some j =>
        if negb (String.eqb j "") then
          try_catch_finally (emit (Call (CancelJob j));; settle (cancelJob w j))
                            (fun _ => ret tt) (ret tt) s
        else (Ok tt, s)
    | None => (Ok tt, s)
    end.

(** While the running function is suspended at an [await], React renders
    and the user may act: the Stop button is rendered only while
    [runningAll] holds. *)
Definition suspended : Async Panel unit :=
  fun s =>
    let s' := mkSt (comp s) (trace s) (S (clock s)) in
    if stopClick w (clock s) && runningAll (comp s)
    then stopAnalysis s'
    else (Ok tt, s').

(** [await api.request(...)] *)
Definition await {A} (r : Request) (o : Outcome A) : Async Panel A :=
  emit (Call r);; suspended;; settle o.

(** [await new Promise(resolve => setTimeout(resolve, ms))] *)
Definition sleep (ms : Z) : Async Panel unit :=
  emit (Sleep ms);; suspended.

(** The loop of [pollJobStatus]: [remaining] is [maxAttempts - attempt]. *)
Fixpoint pollLoop (jobId agentId : string) (remaining attempt : nat)
    : Async Panel string :=
  match remaining with
  | O => throw (JsError "Job timed out")
  | S remaining' =>
      job <- await (GetJob jobId) (getJob w jobId attempt);;
      match status job with
      | completed =>
          match result_json job with
          | Some res => ret (summary agentId res)
          | None => ret "Completed"
          end
      | failed => throw (JsError (str_or (error job) "Job failed"))
      | cancelled => throw (JsError "Job cancelled")
      | pending | running =>
          sleep pollInterval;;
          pollLoop jobId agentId remaining' (S attempt)
      end
  end.

Definition pollJobStatus (jobId agentId : string) : Async Panel string :=
  pollLoop jobId agentId maxAttempts 0.

(** The request [startAgentJob] sends for an agent name, if any. *)
Definition startRequest (agentId : string) : option Request :=
  if String.eqb agentId "explorer" then Some (RunExplorerBackground (databaseId props))
  else if String.eqb agentId "observer" then Some (RunObserverBackground (databaseId props))
  else if String.eqb agentId "architect" then Some (RunArchitectBackground (databaseId props))
  else if String.eqb agentId "gardener" then Some (RunGardenerBackground (databaseId props))
  else if String.eqb agentId "partitioner" then
    Some (RunPartitionerBackground (databaseId props))
  else None.

Definition startAgentJob (agentId : string) : Async Panel string :=
  match startRequest agentId with
  | Some r => await r (startJob w r)
  | None => throw (JsError ("Unknown agent: " +:+ agentId))
  end.

(** [onAnalysisComplete?.()] *)
Definition notifyComplete : Async Panel unit :=
  match onAnalysisComplete props with
  | Some o => emit AnalysisComplete;; settle o
  | None => ret tt
  end.

Definition runAgent (agentId : string) : Async Panel unit :=
  updateAgentStatus agentId AgentState.running None;;
  try_catch_finally
    (jobId <- startAgentJob agentId;;
     modify (setCurrentJobId (Some jobId));;
     res <- pollJobStatus jobId agentId;;
     updateAgentStatus agentId AgentState.success (Some res);;
     notifyComplete)
    (fun err => updateAgentStatus agentId AgentState.error
                  (Some (error_message err "Failed")))
    (modify (setCurrentJobId None)).

(** [initialStatus]: every agent pending. *)
Definition initialStatus : gmap string AgentStatus :=
  foldl (fun m a => <[agent_id a := mkStatus AgentState.pending None]> m) ∅ agents.

(** The inner loop that marks [agents[j]], [j >= i], as stopped. *)
Fixpoint markStopped (rest : list AgentDef) : Async Panel unit :=
  match rest with
  | [] => ret tt
  | b :: rest' =>
      updateAgentStatus (agent_id b) AgentState.error (Some "Stopped by user");;
      markStopped rest'
  end.

(** The body of the [for] loop of [runAllAgentsSequentially] from index
    [i] on, [rest] being [agents.slice(i)].  [stop] is the [shouldStop]
    the closure reads: the [const] bound by [useState] in the render that
    created the function.  [setShouldStop] writes the state cell of the
    next render and leaves this binding as it is. *)
Fixpoint runFrom (stop : bool) (i : Z) (rest : list AgentDef) : Async Panel unit :=
  match rest with
  | [] => ret tt
  | a :: rest' =>
      if stop then markStopped rest        (* ... and [break] *)
      else
        modify (setCurrentStep i);;
        updateAgentStatus (agent_id a) AgentState.running None;;
        try_catch_finally
          (jobId <- startAgentJob (agent_id a);;
           modify (setCurrentJobId (Some jobId));;
           res <- pollJobStatus jobId (agent_id a);;
           updateAgentStatus (agent_id a) AgentState.success (Some res))
          (fun err => updateAgentStatus (agent_id a) AgentState.error
                        (Some (error_message err "Failed")))
          (modify (setCurrentJobId None));;
        runFrom stop (i + 1) rest'
  end.

Definition runAllAgentsSequentially (stop : bool) : Async Panel unit :=
  modify (setRunningAll true);;
  modify (setCurrentStep 0);;
  modify (setShouldStop false);;
  modify (setAgentStatus (fun _ => initialStatus));;
  runFrom stop 0 agents;;
  modify (setCurrentStep (-1));;
  modify (setRunningAll false);;
  modify (setShouldStop false);;
  notifyComplete.

(** Pressing Run All calls the function of the current render, whose
    [shouldStop] is the state cell's value at that render. *)
Definition pressRunAll : Async Panel unit :=
  fun s => runAllAgentsSequentially (shouldStop (comp s)) s.

End Component.
End AgentPanel.

(** ** app/databases/[id]/page.tsx *)

Module DatabasePage.

(** The two [useState] cells [runAnalysis] writes. *)
Record Page : Type := mkPage {
  analyzing : bool;
  error : option string
}.

Definition setAnalyzing (b : bool) (p : Page) : Page := mkPage b (error p).
Definition setError (e : option string) (p : Page) : Page := mkPage (analyzing p) e.

Definition loaded : St Page := mkSt (mkPage false None) [] 0.

Definition pollInterval : Z := 1000.
Definition maxAttempts : nat := 600.

Section Component.
(** [params.id ? Number(params.id) : null] *)
Variable databaseId : option Z.
Variable w : World.

(** [await api.request(...)]; no handler of this page is modelled as
    running in between. *)
Definition await {A} (r : Request) (o : Outcome A) : Async Page A :=
  emit (Call r);;
  (fun s => (Ok tt, mkSt (comp s) (trace s) (S (clock s))));;
  settle o.

(** The polling loop inside [runAnalysis]; [break] and the exhausted loop
    both continue after it. *)
Fixpoint pollLoop (job_id : string) (remaining attempt : nat) : Async Page unit :=
  match remaining with
  | O => ret tt
  | S remaining' =>
      job <- await (GetJob job_id) (getJob w job_id attempt);;
      match status job with
      | completed => ret tt
      | failed => throw (JsError (str_or (Api.error job) "Analysis failed"))
      | cancelled => throw (JsError "Analysis cancelled")
      | pending | running =>
          emit (Sleep pollInterval);;
          pollLoop job_id remaining' (S attempt)
      end
  end.

Definition runAnalysis : Async Page unit :=
  match databaseId with
  | None => ret tt
  | Some db =>
      if db =? 0 then ret tt
      else
        modify (setAnalyzing true);;
        modify (setError None);;
        try_catch_finally
          (job_id <- await (RunExplorerBackground db) (startJob w (RunExplorerBackground db));;
           pollLoop job_id maxAttempts 0;;
           emit FetchData)
          (fun err => modify (setError (Some (error_message err "Analysis failed"))))
          (modify (setAnalyzing false))
  end.

End Component.
End DatabasePage.

(** ** hooks/useJobPolling.ts *)

Module JobPolling.

(** The callbacks the hook may invoke. *)
Inductive Callback : Type :=
| OnComplete (job : Job)
| OnError (message : string).

(** The optional callbacks, each with the way a call to it ends. *)
Record UseJobPollingOptions : Type := mkOptions {
  onComplete : option (Job -> Outcome unit);
  onError : option (string -> Outcome unit)
}.

(** State cells and refs of the hook; [intervalRef] holds whether an
    interval timer is installed. *)
Record Hook : Type := mkHook {
  job : option Job;
  loading : bool;
  error : option string;
  intervalRef : bool;
  mountedRef : bool
}.

(** What one call of [fetchJob] did. *)
Record Fetched : Type := mkFetched {
  hook : Hook;
  requested : bool;               (* [api.getJob] was called *)
  cleared : bool;                 (* [stopPolling] was called *)
  callbacks : list Callback;      (* the callbacks invoked, in order *)
  settledAs : Outcome unit        (* how the promise of [fetchJob] settles *)
}.

(** [stopPolling] *)
Definition stopPolling (h : Hook) : Hook :=
  if intervalRef h
  then mkHook (job h) (loading h) (error h) false (mountedRef h)
  else h.

(** [callback?.(a)]: the invocation, if the callback is passed, and how it ends. *)
Definition invoke {A} (callback : option (A -> Outcome unit)) (mk : A -> Callback) (a : A)
    : list Callback * Outcome unit :=
  match callback with
  | Some f => ([mk a], f a)
  | None => ([], Ok tt)
  end.

(** The [catch] block of [fetchJob], entered with [err] after the hook
    reached [h], [stopPolling] having been called or not and [done] being
    the callbacks invoked so far. *)
Definition caught (options : UseJobPollingOptions) (err : Thrown) (h : Hook)
    (stopped : bool) (done : list Callback) : Fetched :=
  if negb (mountedRef h) then mkFetched h true stopped done (Ok tt)
  else
    let errorMsg := error_message err "Failed to fetch job status" in
    let h := mkHook (job h) (loading h) (Some errorMsg) (intervalRef h) (mountedRef h) in
    match invoke (onError options) OnError errorMsg with
    | (cbs, Ok _) => mkFetched (stopPolling h) true true (done ++ cbs) (Ok tt)
    | (cbs, Throw err') => mkFetched h true stopped (done ++ cbs) (Throw err')
    end.

(** [fetchJob]; [response] settles [api.getJob(jobId)] and [mountedAfter]
    is [mountedRef.current] when it does. *)
Definition fetchJob (jobId : option string) (options : UseJobPollingOptions)
    (response : Outcome Job) (mountedAfter : bool) (h : Hook) : Fetched :=
  if negb (str_truthy jobId) || negb (mountedRef h) then mkFetched h false false [] (Ok tt)
  else
    let h := mkHook (job h) (loading h) (error h) (intervalRef h) mountedAfter in
    match response with
    | Ok jobData =>
        if negb mountedAfter then mkFetched h true false [] (Ok tt)
        else
          let h := mkHook (Some jobData) (loading h) None (intervalRef h) (mountedRef h) in
          match status jobData with
          | completed =>
              match invoke (onComplete options) OnComplete jobData with
              | (cbs, Ok _) => mkFetched (stopPolling h) true true cbs (Ok tt)
              | (cbs, Throw err) => caught options err (stopPolling h) true cbs
              end
          | failed =>
              match invoke (onError options) OnError
                      (str_or (Api.error jobData) "Job failed") with
              | (cbs, Ok _) => mkFetched (stopPolling h) true true cbs (Ok tt)
              | (cbs, Throw err) => caught options err (stopPolling h) true cbs
              end
          | cancelled => mkFetched (stopPolling h) true true [] (Ok tt)
          | pending | running => mkFetched h true false [] (Ok tt)
          end
    | Throw err => caught options err h false []
    end.

End JobPolling.

(** ** hooks/useApi.ts *)

Module UseApi.

Section Hook.
(** The type of the data the API call resolves to. *)
Context {T : Type}.

(** An entry of the module-level [cache]. *)
Record Entry : Type := mkEntry {
  data : T;
  timestamp : Z
}.

Definition DEFAULT_CACHE_TTL : Z := 30000.

(** The optional callbacks come with the way a call to them ends. *)
Record UseApiOptions : Type := mkOptions {
  onSuccess : option (T -> Outcome unit);
  onError : option (string -> Outcome unit);
  cacheKey : option string;
  cacheTTL : option Z
}.

Record UseApiState : Type := mkState {
  st_data : option T;
  loading : bool;
  error : option string
}.

Inductive Callback : Type :=
| OnSuccess (d : T)
| OnError (message : string).

(** What surrounds one call of [execute]: the clock read by the cache
    check, how [apiCall()] settles, whether the component is still mounted
    then, and the clock read when the cache is written. *)
Record Env : Type := mkEnv {
  nowAtCheck : Z;
  apiCall : Outcome T;
  mountedAfter : bool;
  nowAtStore : Z
}.

(** What one call of [execute] did; [returned] is the value the promise
    resolves to ([None] for [undefined]) or what it rejects with. *)
Record Executed : Type := mkExecuted {
  cache : gmap string Entry;
  hookState : UseApiState;
  called : bool;                  (* [apiCall()] was invoked *)
  callbacks : list Callback;
  returned : Outcome (option T)
}.

(** [callback?.(a)]: the invocation, if the callback is passed, and how it ends. *)
Definition invoke {A} (callback : option (A -> Outcome unit)) (mk : A -> Callback) (a : A)
    : list Callback * Outcome unit :=
  match callback with
  | Some f => ([mk a], f a)
  | None => ([], Ok tt)
  end.

(** The cache entry [execute] answers from, if any. *)
Definition fresh (options : UseApiOptions) (now : Z) (c : gmap string Entry)
    : option Entry :=
  if str_truthy (cacheKey options) then
    match c !! default "" (cacheKey options) with
    | Some cached =>
        if now - timestamp cached <? default DEFAULT_CACHE_TTL (cacheTTL options)
        then Some cached else None
    | None => None
    end
  else None.

(** The [catch] block of [execute], entered with [err] when the cache is
    [c] and [done] are the callbacks invoked so far. *)
Definition caught (options : UseApiOptions) (env : Env) (err : Thrown)
    (c : gmap string Entry) (st : UseApiState) (done : list Callback) : Executed :=
  if negb (mountedAfter env) then mkExecuted c st true done (Ok None)
  else
    let errorMessage := error_message err "An error occurred" in
    let st := mkState (st_data st) false (Some errorMessage) in
    match invoke (onError options) OnError errorMessage with
    | (cbs, Ok _) => mkExecuted c st true (done ++ cbs) (Throw err)
    | (cbs, Throw err') => mkExecuted c st true (done ++ cbs) (Throw err')
    end.

Definition execute (options : UseApiOptions) (env : Env)
    (c : gmap string Entry) (st : UseApiState) : Executed :=
  match fresh options (nowAtCheck env) c with
  | Some cached =>
      mkExecuted c (mkState (Some (data cached)) false None) false [] (Ok (Some (data cached)))
  | None =>
      let st := mkState (st_data st) true None in
      match apiCall env with
      | Ok d =>
          if negb (mountedAfter env) then mkExecuted c st true [] (Ok None)
          else
            let c := if str_truthy (cacheKey options)
                     then <[default "" (cacheKey options) := mkEntry d (nowAtStore env)]> c
                     else c in
            let st := mkState (Some d) false None in
            match invoke (onSuccess options) OnSuccess d with
            | (cbs, Ok _) => mkExecuted c st true cbs (Ok (Some d))
            | (cbs, Throw err) => caught options env err c st cbs
            end
      | Throw err => caught options env err c st []
      end
  end.

(** [clearApiCache(key?)] *)
Definition clearApiCache (key : option string) (c : gmap string Entry)
    : gmap string Entry :=
  if str_truthy key then delete (default "" key) c else ∅.

End Hook.
Arguments Entry T : clear implicits.
Arguments UseApiOptions T : clear implicits.
Arguments UseApiState T : clear implicits.
Arguments Env T : clear implicits.
Arguments Executed T : clear implicits.
Arguments Callback T : clear implicits.

End UseApi.

(** ** Vocabulary of the properties *)

(** The first [k] polls of [jobId] from [attempt] on are answered with a
    job that is still pending or running. *)
Definition stillPending (w : World) (jobId : string) (attempt k : nat) : Prop :=
  ∀ i, (i < k)%nat →
    ∃ j, getJob w jobId (attempt + i) = Ok j ∧ terminal (status j) = false.

(** The events of a polling loop on [job]: polls of that job, the sleeps
    of one poll interval, and what a press on Stop adds. *)
Definition pollEvent (job : option string) (e : Event) : Prop :=
  match e with
  | Call (GetJob j) => job = Some j
  | Call (CancelJob _) => True
  | Sleep ms => ms = AgentPanel.pollInterval
  | StopPressed => True
  | _ => False
  end.

(** A request that starts a background job of one agent. *)
Definition singleAgentStart (r : Request) : bool :=
  match r with
  | RunExplorerBackground _ | RunObserverBackground _ | RunArchitectBackground _
  | RunGardenerBackground _ | RunPartitionerBackground _ => true
  | _ => false
  end.

(** A request for the five-step pipeline of the backend. *)
Definition pipelineRequest (r : Request) : bool :=
  match r with
  | RunAllAgents _ | RunAllAgentsBackground _ => true
  | _ => false
  end.

(** The milestones of a trace: agent status updates and job starts. *)
Definition milestone (e : Event) : bool :=
  match e with
  | StatusSet _ _ _ => true
  | Call r => singleAgentStart r
  | _ => false
  end.

Definition milestones (tr : list Event) : list Event :=
  List.filter milestone tr.

(** The requests of a trace, in order. *)
Definition requests (tr : list Event) : list Request :=
  omap (fun e => match e with Call r => Some r | _ => None end) tr.

(** The number of polls in a trace. *)
Definition polls (tr : list Event) : nat :=
  length (List.filter (fun e => match e with Call (GetJob _) => true | _ => false end) tr).

(** What [tr'] adds to [tr]. *)
Definition added (tr tr' : list Event) : list Event := drop (length tr) tr'.

(** Every poll of the trace addresses the job the latest start request
    returned ([cur], to begin with). *)
Fixpoint pollsLatestJob (w : World) (cur : option string) (tr : list Event) : Prop :=
  match tr with
  | [] => True
  | Call (GetJob j) :: tr' => cur = Some j ∧ pollsLatestJob w cur tr'
  | Call r :: tr' =>
      if singleAgentStart r
      then pollsLatestJob w (match startJob w r with Ok j => Some j | Throw _ => None end) tr'
      else pollsLatestJob w cur tr'
  | _ :: tr' => pollsLatestJob w cur tr'
  end.

(** The answer to a poll that ends the polling of a job, and what the
    polling ends as: the result summary of a completed job ('Completed'
    when it carries no result), the error text of a failed job, the fixed
    text of a cancelled one, or the error of the request itself. *)
Inductive Settles (agentId : string) : Outcome Job → Outcome string → Prop :=
| settles_completed job :
    status job = completed →
    Settles agentId (Ok job)
            (Ok (match result_json job with
                 | Some res => AgentPanel.summary agentId res
                 | None => "Completed"
                 end))
| settles_failed job :
    status job = failed →
    Settles agentId (Ok job) (Throw (JsError (str_or (Api.error job) "Job failed")))
| settles_cancelled job :
    status job = cancelled →
    Settles agentId (Ok job) (Throw (JsError "Job cancelled"))
| settles_request_error e :
    Settles agentId (Throw e) (Throw e).

(** How the polling of [jobId] ends, by the backend's answers alone, and
    after how many polls: with the first poll that is not answered with a
    pending or running job, if that is one of the first 600, and else
    with 'Job timed out' once 600 polls were sent. *)
Inductive PollingEnds (w : World) (jobId agentId : string) : nat → Outcome string → Prop :=
| ends_settled k o :
    (k < 600)%nat →
    stillPending w jobId 0 k →
    Settles agentId (getJob w jobId k) o →
    PollingEnds w jobId agentId (S k) o
| ends_timed_out :
    stillPending w jobId 0 600 →
    PollingEnds w jobId agentId 600 (Throw (JsError "Job timed out")).

Section PanelVocabulary.
Import AgentPanel.
Variable props : AgentPanelProps.
Variable w : World.

(** [s'] differs from [s] by events satisfying [P], with the agent
    statuses as they were. *)
Definition Emits (P : Event → Prop) (s s' : St Panel) : Prop :=
  agentStatus (comp s') = agentStatus (comp s)
  ∧ ∃ t, trace s' = trace s ++ t ∧ Forall P t.

(** How the [try] block of one agent ends when run on its own: with the
    result summary of its job, or with what was thrown. *)
Definition agentOutcome (agentId : string) : Outcome string :=
  fst ((jobId <- startAgentJob props w agentId;;
        modify (setCurrentJobId (Some jobId));;
        pollJobStatus w jobId agentId) mounted).

(** The status the panel shows for an agent whose step ended that way. *)
Definition settled (o : Outcome string) : AgentStatus :=
  match o with
  | Ok res => mkStatus AgentState.success (Some res)
  | Throw err => mkStatus AgentState.error (Some (error_message err "Failed"))
  end.

(** The job a start request of the trace returned, if it did. *)
Definition startedJob (r : Request) : option string :=
  match startJob w r with
  | Ok j => Some j
  | Throw _ => None
  end.

(** How the step of agent [a] ends once its start request [r] was sent,
    by the backend's answers alone: [n] polls are sent and the [try]
    block ends as [o].  A start request that fails ends the step at once;
    else the job it returned is polled to the end of its polling. *)
Definition stepEnds (a : string) (r : Request) (n : nat) (o : Outcome string) : Prop :=
  match startJob w r with
  | Ok jobId => PollingEnds w jobId a n o
  | Throw e => n = 0%nat ∧ o = Throw e
  end.

(** The events one agent contributes to a run: it is set running, its
    start request is sent, the job that request returned is polled to the
    end of its polling, and only then is the agent settled. *)
Definition agentSegment (a : string) (t : list Event) : Prop :=
  ∃ r body,
    startRequest props a = Some r
    ∧ Forall (pollEvent (startedJob r)) body
    ∧ stepEnds a r (polls body) (agentOutcome a)
    ∧ t = StatusSet a AgentState.running None :: Call r :: body
            ++ [StatusSet a (state (settled (agentOutcome a)))
                            (result (settled (agentOutcome a)))].

(** What the completion callback adds to the trace at the end of a run. *)
Definition completionEvents : list Event :=
  match onAnalysisComplete props with
  | Some _ => [AnalysisComplete]
  | None => []
  end.

(** The five start requests of a panel, in the order of [agents]. *)
Definition fiveStarts : list Request :=
  [ RunExplorerBackground (databaseId props); RunObserverBackground (databaseId props);
    RunArchitectBackground (databaseId props); RunGardenerBackground (databaseId props);
    RunPartitionerBackground (databaseId props) ].

End PanelVocabulary.

Section PageVocabulary.
Import DatabasePage.

(** The page's state once a poll of [jobId] was sent, and once the loop
    went to sleep after it. *)
Definition polled (jobId : string) (s : St Page) : St Page :=
  mkSt (comp s) (trace s ++ [Call (GetJob jobId)]) (S (clock s)).

Definition slept (s : St Page) : St Page :=
  mkSt (comp s) (trace s ++ [Sleep pollInterval]) (clock s).

End PageVocabulary.

(** ** lib/api.ts: further records *)

Module ApiData.

Record Database : Type := mkDatabase {
  id : Z;
  name : string;
  host : string;
  port : Z;
  database_name : string;
  status : string;
  created_at : string;
  last_analysis : option string
}.

Record MaintenanceTask : Type := mkTask {
  task_type : string;
  table_name : string;
  index_name : option string;
  sql_command : string;
  priority : string;
  reason : string;
  estimated_duration : string
}.

End ApiData.

(** ** app/activity/page.tsx: durations and database labels *)

Module ActivityPage.

Section Helpers.
(** [new Date(str).getTime()] on the timestamps the backend sends. *)
Variable getTime : string -> Z.

(** [formatDuration(startStr, endStr)], [now] being [new Date().getTime()].
    [Math.floor(x / n)] is [x / n] on [Z]; [%] is the truncating [Z.rem]. *)
Definition formatDuration (startStr endStr : option string) (now : Z) : string :=
  if negb (str_truthy startStr) then "-"
  else
    let start := getTime (default "" startStr) in
    let end_ := if str_truthy endStr then getTime (default "" endStr) else now in
    let diffMs := end_ - start in
    let seconds := diffMs / 1000 in
    let minutes := seconds / 60 in
    let hours := minutes / 60 in
    if 0 <? hours then pretty hours +:+ "h " +:+ pretty (Z.rem minutes 60) +:+ "m"
    else if 0 <? minutes then pretty minutes +:+ "m " +:+ pretty (Z.rem seconds 60) +:+ "s"
    else pretty seconds +:+ "s".

(** The duration cell of a job row:
    [formatDuration(job.started_at || job.created_at, job.completed_at)]. *)
Definition jobDuration (job : Job) (now : Z) : string :=
  formatDuration (Some (str_or (Api.started_at job) (Api.created_at job)))
                 (Api.completed_at job) now.

End Helpers.

(** [getDatabaseName(dbId)] over the loaded [databases]. *)
Definition getDatabaseName (databases : list ApiData.Database) (dbId : option Z) : string :=
  match dbId with
  | None => "System"
  | Some n =>
      if n =? 0 then "System"
      else str_or (ApiData.name <$> List.find (fun d => ApiData.id d =? n) databases)
                  ("DB " +:+ pretty n)
  end.

End ActivityPage.

(** ** components/agents/MaintenanceTasks.tsx *)

Module MaintenanceTasks.
Import ApiData.

Definition highPriority (tasks : list MaintenanceTask) : list MaintenanceTask :=
  filter (fun t => priority t = "high") tasks.
Definition mediumPriority (tasks : list MaintenanceTask) : list MaintenanceTask :=
  filter (fun t => priority t = "medium") tasks.
Definition lowPriority (tasks : list MaintenanceTask) : list MaintenanceTask :=
  filter (fun t => priority t = "low") tasks.

End MaintenanceTasks.

(** ** hooks/useJobPolling.ts: useMultipleJobs *)

Module MultipleJobs.

Record Hook : Type := mkHook {
  jobs : gmap string Job;
  loading : bool
}.

(** What [api.getJob(id).catch(() => null)] resolves to. *)
Definition orNull (o : Outcome Job) : option Job :=
  match o with
  | Ok j => Some j
  | Throw _ => None
  end.

(** The body of [results.forEach], applied to [(jobIds[index], job)]:
    [if (job) newJobs.set(jobIds[index], job)]. *)
Definition keep (m : gmap string Job) (r : string * option Job) : gmap string Job :=
  match r.2 with
  | Some j => <[r.1 := j]> m
  | None => m
  end.

(** [fetchJobs]; [respond i id] settles the request sent for [jobIds[i]]. *)
Definition fetchJobs (jobIds : list string) (respond : nat -> string -> Outcome Job)
    (h : Hook) : Hook :=
  match jobIds with
  | [] => h
  | _ =>
      let results := imap (fun i jobId => orNull (respond i jobId)) jobIds in
      let newJobs := foldl keep ∅ (zip jobIds results) in
      mkHook newJobs false
  end.

(** [getJob: (id) => jobs.get(id)] *)
Definition getJob (h : Hook) (jobId : string) : option Job := jobs h !! jobId.

End MultipleJobs.

(** ** components/AgentPanel.tsx: what the buttons are derived from *)

Module PanelView.
Import AgentPanel.

(** [Object.values(agentStatus).some(s => s.state === 'running') || runningAll] *)
Definition anyRunning (p : Panel) : bool :=
  existsb (fun kv => bool_decide (state kv.2 = AgentState.running))
          (map_to_list (agentStatus p))
  || runningAll p.

(** [Object.values(agentStatus).filter(s => s.state === 'success' ||
    s.state === 'error').length] *)
Definition completedCount (p : Panel) : nat :=
  length (List.filter (fun kv => bool_decide (state kv.2 = AgentState.success)
                                 || bool_decide (state kv.2 = AgentState.error))
                      (map_to_list (agentStatus p))).

End PanelView.

(** ** Further vocabulary *)

(** The time a trace spends sleeping, in milliseconds. *)
Fixpoint waited (tr : list Event) : Z :=
  match tr with
  | [] => 0
  | Sleep ms :: tr' => ms + waited tr'
  | _ :: tr' => waited tr'
  end.

Section RunAgentVocabulary.
Import AgentPanel.
Variable props : AgentPanelProps.
Variable w : World.

(** The entry [runAgent] leaves for an agent: that of its step, unless
    the completion callback threw after a success. *)
Definition runAgentStatus (agentId : string) : AgentStatus :=
  match agentOutcome props w agentId, onAnalysisComplete props with
  | Ok res, Some (Throw err) => mkStatus AgentState.error (Some (error_message err "Failed"))
  | o, _ => settled o
  end.

(** The events that close a [runAgent]: the status updates after the
    polling, around the call of the completion callback. *)
Definition runAgentClosing (agentId : string) : list Event :=
  match agentOutcome props w agentId with
  | Throw err => [StatusSet agentId AgentState.error (Some (error_message err "Failed"))]
  | Ok res =>
      StatusSet agentId AgentState.success (Some res) :: completionEvents props
      ++ match onAnalysisComplete props with
         | Some (Throw err) =>
             [StatusSet agentId AgentState.error (Some (error_message err "Failed"))]
         | _ => []
         end
  end.

End RunAgentVocabulary.

(** What a press on Stop adds to a trace. *)
Definition stopEvent (e : Event) : Prop :=
  match e with
  | StopPressed | Call (CancelJob _) => True
  | _ => False
  end.

(** ** Scenarios *)

Module Scenario.
Import AgentPanel.

(** The panel of database 7, with its completion callback. *)
Definition props7 : AgentPanelProps := mkProps 7 (Some (Ok tt)).

(** A job of database 7 as the backend reports it. *)
Definition jobIn (jobId agentName : string) (st : JobStatus) (err : option string)
    (res : option (gmap string JsVal)) : Job :=
  mkJob jobId 7 agentName st (if terminal st then 100 else 0) None 1
        (Some "2025-01-01T10:00:00") None err res "2025-01-01T09:59:59".

(** The backend names each job after its agent. *)
Definition idOf (r : Request) : Outcome string :=
  match r with
  | RunExplorerBackground _ => Ok "job-explorer"
  | RunObserverBackground _ => Ok "job-observer"
  | RunArchitectBackground _ => Ok "job-architect"
  | RunGardenerBackground _ => Ok "job-gardener"
  | RunPartitionerBackground _ => Ok "job-partitioner"
  | _ => Throw (JsError "Not Found")
  end.

(** Every job is found completed by its first poll. *)
Definition allComplete : World :=
  mkWorld idOf (fun j _ => Ok (jobIn j "agent" completed None None))
          (fun _ => Ok tt) (fun _ => false).

(** The counters a completed job reports. *)
Definition counters : gmap string JsVal :=
  list_to_map [ ("anomalies_count", JsNum 3); ("metrics_collected", JsNum 12);
                ("signals_detected", JsNum 2); ("proposals_created", JsNum 4);
                ("indexes_checked", JsNum 9); ("recommendations_count", JsNum 1) ].

(** The architect's job fails with "LLM timeout"; the others complete
    with their counters. *)
Definition architectFails : World :=
  mkWorld idOf
    (fun j _ =>
       if String.eqb j "job-architect"
       then Ok (jobIn j "architect" failed (Some "LLM timeout") None)
       else Ok (jobIn j "agent" completed None (Some counters)))
    (fun _ => Ok tt) (fun _ => false).

(** The explorer's job is running at its first poll; the user presses Stop
    during the sleep that follows (the third await of the run), the backend
    cancels the job, and the second poll finds it cancelled.  All other
    jobs complete at once. *)
Definition stopDuringExplorer : World :=
  mkWorld idOf
    (fun j n =>
       if String.eqb j "job-explorer" then
         match n with
         | O => Ok (jobIn j "explorer" running None None)
         | _ => Ok (jobIn j "explorer" cancelled (Some "Cancelled by user") None)
         end
       else Ok (jobIn j "agent" completed None None))
    (fun _ => Ok tt) (fun t => Nat.eqb t 2).

(** The explorer's job stays running for good; the others complete. *)
Definition explorerStuck : World :=
  mkWorld idOf
    (fun j _ =>
       if String.eqb j "job-explorer"
       then Ok (jobIn j "explorer" running None None)
       else Ok (jobIn j "agent" completed None None))
    (fun _ => Ok tt) (fun _ => false).

(** A job that failed, with the given error text. *)
Definition failedWith (msg : string) : World :=
  mkWorld idOf (fun j _ => Ok (jobIn j "explorer" failed (Some msg) None))
          (fun _ => Ok tt) (fun _ => false).

(** A job that was cancelled. *)
Definition jobCancelled : World :=
  mkWorld idOf (fun j _ => Ok (jobIn j "explorer" cancelled (Some "Cancelled by user") None))
          (fun _ => Ok tt) (fun _ => false).

(** A mounted polling hook with its interval timer installed. *)
Definition polling : JobPolling.Hook := JobPolling.mkHook None true None true true.

(** The job a poll of [jobCancelled] finds. *)
Definition cancelledJob : Job :=
  jobIn "job-1" "explorer" cancelled (Some "Cancelled by user") None.

(** Callbacks that return normally, and one that throws. *)
Definition returns {A} (_ : A) : Outcome unit := Ok tt.
Definition throws {A} (_ : A) : Outcome unit := Throw (JsError "render failed").

(** The options of a polling hook whose callbacks return normally, and
    of one whose [onComplete] throws. *)
Definition plainCallbacks : JobPolling.UseJobPollingOptions :=
  JobPolling.mkOptions (Some returns) (Some returns).
Definition throwingOnComplete : JobPolling.UseJobPollingOptions :=
  JobPolling.mkOptions (Some throws) (Some returns).

(** The job a poll finds completed. *)
Definition completedJob : Job := jobIn "job-1" "explorer" completed None None.

(** A [useApi] call cached under "databases" with the default TTL. *)
Definition cached : UseApi.UseApiOptions Z :=
  UseApi.mkOptions (Some returns) (Some returns) (Some "databases") None.

(** An API call that resolves to 5 at time 1000, stored at time 1200; the
    component is mounted or not when it resolves. *)
Definition resolves (stillMounted : bool) : UseApi.Env Z :=
  UseApi.mkEnv 1000 (Ok 5) stillMounted 1200.

(** A hook state before its first call. *)
Definition idle : UseApi.UseApiState Z := UseApi.mkState None false None.

(** [new Date(str).getTime()] on the two timestamps of [jobIn]. *)
Definition getTime (str : string) : Z :=
  if String.eqb str "2025-01-01T10:00:00" then 1735725600000
  else if String.eqb str "2025-01-01T09:59:59" then 1735725599000
  else 0.

(** Two jobs are asked for; the first is running, the request for the
    second fails. *)
Definition secondMissing (i : nat) (jobId : string) : Outcome Job :=
  match i with
  | O => Ok (jobIn jobId "explorer" running None None)
  | _ => Throw (JsError "Not Found")
  end.

(** The hook of [useMultipleJobs] before its first fetch. *)
Definition noJobs : MultipleJobs.Hook := MultipleJobs.mkHook ∅ true.

(** A second API call, 20 s after the one of [resolves]. *)
Definition later : UseApi.Env Z := UseApi.mkEnv 21000 (Ok 6) true 21200.

(** An API call that fails while the component is mounted. *)
Definition rejects : UseApi.Env Z :=
  UseApi.mkEnv 1000 (Throw (JsError "Network error")) true 1200.

(** A panel rendered with its stop flag set. *)
Definition stopFlagSet : St Panel := mkSt (mkPanel ∅ false (-1) true None) [] 0.

End Scenario.

(** * Properties *)

(** The attempt bounds stay folded in proofs; only evaluation unrolls the
    polling loops. *)
Arguments AgentPanel.maxAttempts : simpl never.
Arguments DatabasePage.maxAttempts : simpl never.
Opaque AgentPanel.maxAttempts DatabasePage.maxAttempts.
Arguments agentOutcome : simpl never.

(** ** Running jobs (activity page and useJobPolling flags) *)

Lemma isRunning_not_terminal (j : Job) :
  isRunning (Some j) = negb (terminal (status j)).
Proof. unfold isRunning. by destruct (status j). Qed.

Lemma runningJobs_elem (jobs : list Job) (j : Job) :
  j ∈ runningJobs jobs ↔ j ∈ jobs ∧ (status j = pending ∨ status j = running).
Proof. unfold runningJobs. rewrite list_elem_of_filter. tauto. Qed.

(** C5. A job is counted as running exactly when its status is 'pending'
    or 'running': the running-jobs list of the activity page keeps, in
    order, exactly the jobs of the list whose status is not terminal, a job
    belongs to it if and only if it is in the list with status 'pending' or
    'running', and the hook's [isRunning] flag is true on exactly those
    statuses (and false without a job). *)
Theorem running_iff_pending_or_running (jobs : list Job) (j : Job) :
  (j ∈ runningJobs jobs ↔ j ∈ jobs ∧ (status j = pending ∨ status j = running))
  ∧ runningJobs jobs = filter (fun x => terminal (status x) = false) jobs
  ∧ (isRunning (Some j) = true ↔ status j = pending ∨ status j = running)
  ∧ isRunning (Some j) = negb (terminal (status j))
  ∧ isRunning None = false.
Proof.
  split; [apply runningJobs_elem|].
  split.
  { unfold runningJobs. apply list_filter_iff. intros x.
    destruct (status x); simpl; intuition congruence. }
  split; [|split; [apply isRunning_not_terminal | reflexivity]].
  rewrite isRunning_not_terminal.
  destruct (status j); simpl; intuition congruence.
Qed.

(** ** useJobPolling: what one fetch does *)

Section FetchJob.
Import JobPolling.
Variables (jobId : string) (options : UseJobPollingOptions) (h : Hook).
Hypothesis jobId_set : jobId ≠ "".
Hypothesis is_mounted : mountedRef h = true.

Lemma fetchJob_proceeds : str_truthy (Some jobId) = true.
Proof. simpl. destruct (String.eqb_spec jobId ""); [contradiction | reflexivity]. Qed.

Lemma stopPolling_clears (h' : Hook) : intervalRef (stopPolling h') = false.
Proof. unfold stopPolling. destruct (intervalRef h') eqn:E; simpl; auto. Qed.

Lemma stopPolling_mounted (h' : Hook) : mountedRef (stopPolling h') = mountedRef h'.
Proof. unfold stopPolling. by destruct (intervalRef h'). Qed.

Lemma fetchJob_cancelled_silent (jobData : Job) :
  status jobData = cancelled →
  fetchJob (Some jobId) options (Ok jobData) true h
  = mkFetched (stopPolling (mkHook (Some jobData) (loading h) None (intervalRef h) true))
              true true [] (Ok tt).
Proof.
  intros Hst. unfold fetchJob. rewrite fetchJob_proceeds, is_mounted. simpl.
  by rewrite Hst.
Qed.

(** The callbacks the [catch] block adds are [onError] calls with the
    message of what was caught. *)
Lemma caught_callbacks err h' stopped done c :
  c ∈ callbacks (caught options err h' stopped done) →
  c ∈ done ∨ c = OnError (error_message err "Failed to fetch job status").
Proof.
  unfold caught, invoke. destruct (negb (mountedRef h')); simpl; [auto|].
  destruct (onError options) as [f|]; simpl.
  - destruct (f _); simpl; rewrite elem_of_app, list_elem_of_singleton; tauto.
  - rewrite app_nil_r. auto.
Qed.

Lemma fetchJob_onComplete_only (response : Outcome Job) (after : bool) (j : Job) :
  OnComplete j ∈ callbacks (fetchJob (Some jobId) options response after h) →
  response = Ok j ∧ status j = completed.
Proof.
  unfold fetchJob. rewrite fetchJob_proceeds, is_mounted. simpl.
  destruct response as [jobData | err].
  - destruct after; simpl; [|by rewrite elem_of_nil].
    destruct (status jobData) eqn:Hst; simpl; try (by rewrite elem_of_nil).
    + unfold invoke. destruct (onComplete options) as [f|]; simpl.
      * destruct (f jobData); simpl.
        -- rewrite list_elem_of_singleton. by intros [= ->].
        -- intros [Hin|?]%caught_callbacks; [|done].
           apply list_elem_of_singleton in Hin. by injection Hin as ->.
      * by rewrite elem_of_nil.
    + unfold invoke. destruct (onError options) as [f|]; simpl.
      * destruct (f _); simpl.
        -- by rewrite list_elem_of_singleton.
        -- intros [Hin|?]%caught_callbacks; [|done].
           by apply list_elem_of_singleton in Hin.
      * by rewrite elem_of_nil.
  - intros [Hin|?]%caught_callbacks; [|done]. by apply elem_of_nil in Hin.
Qed.

Lemma fetchJob_onError_only (response : Outcome Job) (after : bool) (m : string) :
  OnError m ∈ callbacks (fetchJob (Some jobId) options response after h) →
  (∃ j, response = Ok j ∧ status j = failed)
  ∨ (∃ err, response = Throw err ∧ m = error_message err "Failed to fetch job status")
  ∨ (∃ j f err, response = Ok j ∧ status j = completed
       ∧ onComplete options = Some f ∧ f j = Throw err
       ∧ m = error_message err "Failed to fetch job status").
Proof.
  unfold fetchJob. rewrite fetchJob_proceeds, is_mounted. simpl.
  destruct response as [jobData | err].
  - destruct after; simpl; [|by rewrite elem_of_nil].
    destruct (status jobData) eqn:Hst; simpl; try (by rewrite elem_of_nil).
    + unfold invoke. destruct (onComplete options) as [f|] eqn:Hf; simpl.
      * destruct (f jobData) as [|err] eqn:Hthrow; simpl.
        -- by rewrite list_elem_of_singleton.
        -- intros [Hin|Hin]%caught_callbacks.
           ++ by apply list_elem_of_singleton in Hin.
           ++ injection Hin as ->. right. right. by exists jobData, f, err.
      * by rewrite elem_of_nil.
    + intros _. left. eauto.
  - intros [Hin|Hin]%caught_callbacks; [by apply elem_of_nil in Hin|].
    injection Hin as ->. right. left. eauto.
Qed.

End FetchJob.

(** C9, as stated, fails when the [onComplete] callback throws: the
    [catch] block of [fetchJob] then calls [onError], for a job observed
    'completed' and fetched without error. *)
Lemma completed_job_can_reach_onError :
  status Scenario.completedJob = completed
  ∧ JobPolling.callbacks
      (JobPolling.fetchJob (Some "job-1") Scenario.throwingOnComplete
         (Ok Scenario.completedJob) true Scenario.polling)
    = [ JobPolling.OnComplete Scenario.completedJob; JobPolling.OnError "render failed" ].
Proof. by vm_compute. Qed.

(** C9, as the code has it.  When the hook observes a job in status
    'cancelled' it stops polling and invokes neither callback.
    [onComplete] is invoked only for a job observed 'completed', with that
    job, and is then the first callback invoked; [onError] is invoked only
    for a job observed 'failed', for a failed fetch, or with the message of
    what [onComplete] threw. *)
Theorem cancelled_job_ends_hook_silently
    (jobId : string) (options : JobPolling.UseJobPollingOptions) (h : JobPolling.Hook)
    (response : Outcome Job) (after : bool) :
  jobId ≠ "" →
  JobPolling.mountedRef h = true →
  (∀ j, response = Ok j → after = true → status j = cancelled →
        JobPolling.cleared (JobPolling.fetchJob (Some jobId) options response after h) = true
        ∧ JobPolling.intervalRef
            (JobPolling.hook (JobPolling.fetchJob (Some jobId) options response after h))
          = false
        ∧ JobPolling.callbacks (JobPolling.fetchJob (Some jobId) options response after h)
          = [])
  ∧ (∀ j, JobPolling.OnComplete j
            ∈ JobPolling.callbacks (JobPolling.fetchJob (Some jobId) options response after h) →
          response = Ok j ∧ status j = completed)
  ∧ (∀ m, JobPolling.OnError m
            ∈ JobPolling.callbacks (JobPolling.fetchJob (Some jobId) options response after h) →
          (∃ j, response = Ok j ∧ status j = failed)
          ∨ (∃ err, response = Throw err)
          ∨ (∃ j f err, response = Ok j ∧ status j = completed
               ∧ JobPolling.onComplete options = Some f ∧ f j = Throw err
               ∧ m = error_message err "Failed to fetch job status"))
  ∧ (∀ j f, response = Ok j → after = true → status j = completed →
          JobPolling.onComplete options = Some f →
          head (JobPolling.callbacks (JobPolling.fetchJob (Some jobId) options response after h))
          = Some (JobPolling.OnComplete j)).
Proof.
  intros Hid Hm. split; [|split; [|split]].
  - intros j -> -> Hst. rewrite (fetchJob_cancelled_silent jobId options h Hid Hm j Hst).
    simpl. split; [done|]. split; [apply stopPolling_clears | done].
  - intros j Hin. by eapply fetchJob_onComplete_only.
  - intros m Hin. eapply fetchJob_onError_only in Hin; [|done..].
    destruct Hin as [?|[(err & ? & ?)|?]]; eauto.
  - intros j f -> -> Hst Hf. unfold JobPolling.fetchJob.
    rewrite fetchJob_proceeds, Hm by done. simpl. rewrite Hst.
    unfold JobPolling.invoke. rewrite Hf.
    destruct (f j) as [|err]; [done|].
    unfold JobPolling.caught. rewrite stopPolling_mounted. simpl.
    unfold JobPolling.invoke. destruct (JobPolling.onError options) as [g|]; [|done].
    by destruct (g _).
Qed.

Lemma cancelled_job_ends_hook_silently_witness :
  JobPolling.cleared
    (JobPolling.fetchJob (Some "job-1") Scenario.plainCallbacks
       (Ok Scenario.cancelledJob) true Scenario.polling) = true
  ∧ JobPolling.intervalRef
      (JobPolling.hook
         (JobPolling.fetchJob (Some "job-1") Scenario.plainCallbacks
            (Ok Scenario.cancelledJob) true Scenario.polling)) = false
  ∧ JobPolling.callbacks
      (JobPolling.fetchJob (Some "job-1") Scenario.plainCallbacks
         (Ok Scenario.cancelledJob) true Scenario.polling) = [].
Proof.
  refine (proj1 (cancelled_job_ends_hook_silently "job-1" Scenario.plainCallbacks
                   Scenario.polling (Ok Scenario.cancelledJob) true _ _)
                Scenario.cancelledJob _ _ _); [discriminate | reflexivity ..].
Defined.

(** ** useApi: the module-level cache *)

Section Cache.
Context {T : Type}.
Import UseApi.
Implicit Types (c : gmap string (Entry T)) (env : Env T) (st : UseApiState T).

Lemma key_truthy (key : string) : key ≠ "" → str_truthy (Some key) = true.
Proof. intros Hk. simpl. by destruct (String.eqb_spec key ""). Qed.

Lemma execute_hit options env c st key cached :
  cacheKey options = Some key → key ≠ "" →
  c !! key = Some cached →
  nowAtCheck env - timestamp cached < default DEFAULT_CACHE_TTL (cacheTTL options) →
  execute options env c st
  = mkExecuted c (mkState (Some (data cached)) false None) false [] (Ok (Some (data cached))).
Proof.
  intros Hkey Hne Hc Hage. unfold execute, fresh.
  rewrite Hkey, key_truthy by done. simpl. rewrite Hc.
  by rewrite (proj2 (Z.ltb_lt _ _) Hage).
Qed.

Lemma fresh_miss options now c key :
  cacheKey options = Some key →
  (c !! key = None
   ∨ ∃ cached, c !! key = Some cached
      ∧ default DEFAULT_CACHE_TTL (cacheTTL options) ≤ now - timestamp cached) →
  fresh options now c = None.
Proof.
  intros Hkey Hmiss. unfold fresh. rewrite Hkey. simpl.
  destruct (negb _); [|done].
  destruct Hmiss as [-> | (cached & -> & Hold)]; [done|].
  by rewrite (proj2 (Z.ltb_ge _ _) Hold).
Qed.

Lemma caught_called options env err c st done :
  called (caught options env err c st done) = true
  ∧ cache (caught options env err c st done) = c.
Proof.
  unfold caught, invoke. destruct (negb (mountedAfter env)); [done|].
  destruct (onError options) as [f|]; [|done]. by destruct (f _).
Qed.

Lemma execute_miss_calls options env c st :
  fresh options (nowAtCheck env) c = None → called (execute options env c st) = true.
Proof.
  intros Hf. unfold execute. rewrite Hf.
  destruct (apiCall env) as [d|err]; [|apply caught_called].
  destruct (mountedAfter env); [|done]. simpl. unfold invoke.
  destruct (onSuccess options) as [f|]; [|done].
  destruct (f d); [done | apply caught_called].
Qed.

Lemma execute_miss_stores options env c st key d :
  cacheKey options = Some key → key ≠ "" →
  fresh options (nowAtCheck env) c = None →
  apiCall env = Ok d → mountedAfter env = true →
  cache (execute options env c st) = <[key := mkEntry d (nowAtStore env)]> c.
Proof.
  intros Hkey Hne Hf Hd Hm. unfold execute. rewrite Hf, Hd, Hm. simpl.
  rewrite Hkey, key_truthy by done. simpl. unfold invoke.
  destruct (onSuccess options) as [f|]; [|done].
  destruct (f d); [done | apply caught_called].
Qed.

(** The promise of a miss resolves to the data unless [onSuccess] throws. *)
Lemma execute_miss_returns options env c st d :
  fresh options (nowAtCheck env) c = None →
  apiCall env = Ok d → mountedAfter env = true →
  (∀ f, onSuccess options = Some f → f d = Ok tt) →
  returned (execute options env c st) = Ok (Some d).
Proof.
  intros Hf Hd Hm Hcb. unfold execute. rewrite Hf, Hd, Hm. simpl. unfold invoke.
  destruct (onSuccess options) as [f|]; [|done]. by rewrite (Hcb f eq_refl).
Qed.

Lemma clearApiCache_key c key :
  key ≠ "" → clearApiCache (Some key) c = delete key c.
Proof. intros Hne. unfold clearApiCache. by rewrite key_truthy. Qed.

End Cache.

(** C10, as the code has it.  For a [useApi] call whose [cacheKey] is a
    non-empty string: while the cache holds an entry for the key that is
    younger than [cacheTTL] (30000 ms when not given), [execute] answers
    with the entry's data, does not invoke the API call and leaves the cache
    as it is; otherwise it invokes the call and, when the call resolves
    while the component is still mounted, stores the result under the key
    with the time read at that moment.  [clearApiCache(key)] with a
    non-empty key removes that entry and no other; [clearApiCache()]
    empties the cache. *)
Theorem cache_hit_miss_clear {T : Type}
    (options : UseApi.UseApiOptions T) (env : UseApi.Env T)
    (c : gmap string (UseApi.Entry T)) (st : UseApi.UseApiState T) (key : string) :
  UseApi.cacheKey options = Some key →
  key ≠ "" →
  let ttl := default UseApi.DEFAULT_CACHE_TTL (UseApi.cacheTTL options) in
  let r := UseApi.execute options env c st in
  UseApi.DEFAULT_CACHE_TTL = 30000
  ∧ (∀ cached, c !! key = Some cached →
       UseApi.nowAtCheck env - UseApi.timestamp cached < ttl →
       UseApi.called r = false
       ∧ UseApi.returned r = Ok (Some (UseApi.data cached))
       ∧ UseApi.cache r = c)
  ∧ ((c !! key = None
      ∨ ∃ cached, c !! key = Some cached
          ∧ ttl ≤ UseApi.nowAtCheck env - UseApi.timestamp cached) →
     UseApi.called r = true
     ∧ ∀ d, UseApi.apiCall env = Ok d → UseApi.mountedAfter env = true →
         UseApi.cache r = <[key := UseApi.mkEntry d (UseApi.nowAtStore env)]> c
         ∧ ((∀ f, UseApi.onSuccess options = Some f → f d = Ok tt) →
            UseApi.returned r = Ok (Some d)))
  ∧ (UseApi.clearApiCache (Some key) c !! key = None
     ∧ ∀ k, k ≠ key → UseApi.clearApiCache (Some key) c !! k = c !! k)
  ∧ UseApi.clearApiCache None c = ∅.
Proof.
  intros Hkey Hne ttl r. subst ttl r.
  split; [reflexivity|]. split; [|split; [|split]].
  - intros cached Hc Hage.
    by rewrite (execute_hit options env c st key cached).
  - intros Hmiss.
    pose proof (fresh_miss options (UseApi.nowAtCheck env) c key Hkey Hmiss) as Hf.
    split; [by apply execute_miss_calls|].
    intros d Hd Hm. split; [by apply execute_miss_stores|].
    intros Hcb. by apply execute_miss_returns.
  - rewrite clearApiCache_key by done. split.
    + apply lookup_delete_eq.
    + intros k Hk. by rewrite lookup_delete_ne.
  - reflexivity.
Qed.

Lemma cache_hit_miss_clear_witness :
  UseApi.called (UseApi.execute Scenario.cached (Scenario.resolves true) ∅ Scenario.idle) = true
  ∧ UseApi.cache (UseApi.execute Scenario.cached (Scenario.resolves true) ∅ Scenario.idle)
    = <["databases" := UseApi.mkEntry 5 1200]> ∅
  ∧ UseApi.returned (UseApi.execute Scenario.cached (Scenario.resolves true) ∅ Scenario.idle)
    = Ok (Some 5).
Proof.
  pose proof (cache_hit_miss_clear Scenario.cached (Scenario.resolves true) ∅ Scenario.idle
                "databases" eq_refl ltac:(discriminate)) as (_ & _ & Hmiss & _).
  destruct (Hmiss (or_introl eq_refl)) as [Hcalled Hstore].
  split; [exact Hcalled|].
  destruct (Hstore 5 eq_refl eq_refl) as [Hcache Hret].
  split; [exact Hcache|]. apply Hret. intros f [= <-]. reflexivity.
Defined.

(** C10, as stated, fails.  A cache miss whose call resolves after the
    component was unmounted stores nothing under the key, and
    [clearApiCache("")] does not remove "exactly that entry": it empties
    the cache. *)
Lemma cache_miss_unmounted_stores_nothing :
  UseApi.called (UseApi.execute Scenario.cached (Scenario.resolves false) ∅ Scenario.idle) = true
  ∧ UseApi.cache (UseApi.execute Scenario.cached (Scenario.resolves false) ∅ Scenario.idle)
      !! "databases" = None
  ∧ UseApi.clearApiCache (Some "") (<["databases" := UseApi.mkEntry 5 1200]> ∅)
      !! "databases" = None.
Proof. by vm_compute. Qed.

(** ** AgentPanel: the polling loop *)

Section Polling.
Import AgentPanel.
Variable props : AgentPanelProps.
Variable w : World.

Lemma polls_app t1 t2 : polls (t1 ++ t2) = (polls t1 + polls t2)%nat.
Proof. unfold polls. by rewrite List.filter_app, length_app. Qed.

Lemma pollEvents_no_poll t : Forall (pollEvent None) t → polls t = 0%nat.
Proof.
  induction 1 as [|e t He _ IH]; [done|].
  destruct e as [[]| | | | |]; simpl in *; try done.
Qed.

Lemma Emits_refl P s : Emits P s s.
Proof. split; [done|]. exists []. by rewrite app_nil_r. Qed.

Lemma Emits_trans P s1 s2 s3 : Emits P s1 s2 → Emits P s2 s3 → Emits P s1 s3.
Proof.
  intros [H1 (t1 & E1 & F1)] [H2 (t2 & E2 & F2)]. split; [congruence|].
  exists (t1 ++ t2). split; [by rewrite E2, E1, app_assoc | by apply Forall_app].
Qed.

Lemma Emits_weaken (P Q : Event → Prop) s s' :
  (∀ e, P e → Q e) → Emits P s s' → Emits Q s s'.
Proof.
  intros HPQ [H1 (t & E & F)]. split; [done|]. exists t. split; [done|].
  eapply Forall_impl; eauto.
Qed.

Lemma pollEvent_any job e : pollEvent None e → pollEvent job e.
Proof. destruct e as [[]| | | | |]; simpl; try done. Qed.

Lemma stopAnalysis_run s :
  ∃ s', stopAnalysis w s = (Ok tt, s') ∧ Emits (pollEvent None) s s'.
Proof.
  unfold stopAnalysis, bind, emit, modify. simpl.
  destruct (currentJobId (comp s)) as [j|] eqn:Hj; simpl.
  - destruct (negb (String.eqb j "")); simpl.
    + unfold try_catch_finally, bind, emit, settle, ret. simpl.
      destruct (cancelJob w j) as [[]|e]; simpl; eexists; (split; [reflexivity|]);
        (split; [done|]); simpl;
        exists [StopPressed; Call (CancelJob j)]; rewrite <- app_assoc; (split; [done|]);
        repeat constructor.
    + eexists; split; [reflexivity|]. split; [done|]. simpl.
      exists [StopPressed]. split; [done|]. repeat constructor.
  - eexists; split; [reflexivity|]. split; [done|]. simpl.
    exists [StopPressed]. split; [done|]. repeat constructor.
Qed.

Lemma suspended_run s :
  ∃ s', suspended w s = (Ok tt, s') ∧ Emits (pollEvent None) s s'.
Proof.
  unfold suspended. destruct (stopClick w (clock s) && runningAll (comp s)).
  - destruct (stopAnalysis_run (mkSt (comp s) (trace s) (S (clock s)))) as (s' & E & H).
    exists s'. split; [done|]. apply H.
  - eexists; split; [reflexivity|]. split; [done|]. exists []. simpl.
    by rewrite app_nil_r.
Qed.

Lemma await_run {A} (r : Request) (o : Outcome A) s :
  ∃ s', await w r o s = (o, s')
    ∧ agentStatus (comp s') = agentStatus (comp s)
    ∧ ∃ t, trace s' = trace s ++ Call r :: t ∧ Forall (pollEvent None) t.
Proof.
  unfold await, bind, emit, settle. simpl.
  destruct (suspended_run (mkSt (comp s) (trace s ++ [Call r]) (clock s)))
    as (s' & E & Hst & t & Ht & F).
  rewrite E. exists s'. split; [by destruct o|]. split; [done|].
  exists t. simpl in Ht. by rewrite Ht, <- app_assoc.
Qed.

Lemma sleep_run s :
  ∃ s', sleep w pollInterval s = (Ok tt, s') ∧ Emits (pollEvent None) s s'.
Proof.
  unfold sleep, bind, emit. simpl.
  destruct (suspended_run (mkSt (comp s) (trace s ++ [Sleep pollInterval]) (clock s)))
    as (s' & E & Hst & t & Ht & F).
  rewrite E. exists s'. split; [done|]. split; [done|].
  exists (Sleep pollInterval :: t). simpl in Ht. rewrite Ht, <- app_assoc.
  split; [done|]. by constructor.
Qed.

(** One round of the loop, by what the poll is answered with. *)
Lemma pollLoop_step jobId agentId remaining attempt s :
  ∃ s1, Emits (pollEvent (Some jobId)) s s1 ∧
    pollLoop w jobId agentId (S remaining) attempt s =
    match getJob w jobId attempt with
    | Throw e => (Throw e, s1)
    | Ok job =>
        match status job with
        | completed =>
            (Ok (match result_json job with
                 | Some res => summary agentId res
                 | None => "Completed"
                 end), s1)
        | failed => (Throw (JsError (str_or (Api.error job) "Job failed")), s1)
        | cancelled => (Throw (JsError "Job cancelled"), s1)
        | pending | running =>
            pollLoop w jobId agentId remaining (S attempt)
              (snd (sleep w pollInterval s1))
        end
    end.
Proof.
  destruct (await_run (GetJob jobId) (getJob w jobId attempt) s)
    as (s1 & E & Hst & t & Ht & F).
  exists s1. split.
  { split; [done|]. exists (Call (GetJob jobId) :: t). split; [done|].
    constructor; [done|]. eapply Forall_impl; [exact F|]. apply pollEvent_any. }
  simpl. unfold bind at 1. rewrite E.
  destruct (getJob w jobId attempt) as [job|e]; [|done].
  destruct (status job); try done; try (by destruct (result_json job));
    unfold bind; destruct (sleep_run s1) as (s2 & E2 & _); by rewrite E2.
Qed.

Lemma sleep_emits jobId s : Emits (pollEvent (Some jobId)) s (snd (sleep w pollInterval s)).
Proof.
  destruct (sleep_run s) as (s2 & E2 & H). rewrite E2. simpl.
  eapply Emits_weaken; [|exact H]. apply pollEvent_any.
Qed.

(** The loop only polls its own job and sleeps, and leaves the agent
    statuses alone. *)
Lemma pollLoop_emits jobId agentId remaining :
  ∀ attempt s,
    Emits (pollEvent (Some jobId)) s (snd (pollLoop w jobId agentId remaining attempt s)).
Proof.
  induction remaining as [|remaining IH]; intros attempt s.
  - apply Emits_refl.
  - destruct (pollLoop_step jobId agentId remaining attempt s) as (s1 & H1 & ->).
    destruct (getJob w jobId attempt) as [job|e]; [|done].
    destruct (status job); try done;
      (eapply Emits_trans; [exact H1|]);
      (eapply Emits_trans; [apply sleep_emits | apply IH]).
Qed.

(** How the loop ends depends on the backend's answers alone. *)
Lemma pollLoop_outcome jobId agentId remaining :
  ∀ attempt s s',
    fst (pollLoop w jobId agentId remaining attempt s)
    = fst (pollLoop w jobId agentId remaining attempt s').
Proof.
  induction remaining as [|remaining IH]; intros attempt s s'; [done|].
  destruct (pollLoop_step jobId agentId remaining attempt s) as (s1 & _ & ->).
  destruct (pollLoop_step jobId agentId remaining attempt s') as (s1' & _ & ->).
  destruct (getJob w jobId attempt) as [job|e]; [|done].
  destruct (status job); try done; apply IH.
Qed.

(** Polls that find the job pending or running are skipped over. *)
Lemma pollLoop_skip jobId agentId k :
  ∀ remaining attempt s,
    stillPending w jobId attempt k →
    fst (pollLoop w jobId agentId (k + remaining) attempt s)
    = fst (pollLoop w jobId agentId remaining (attempt + k) s).
Proof.
  induction k as [|k IH]; intros remaining attempt s Hp.
  - by rewrite Nat.add_0_r.
  - destruct (Hp 0%nat) as (j & Hj & Hnt); [lia|]. rewrite Nat.add_0_r in Hj.
    simpl plus.
    destruct (pollLoop_step jobId agentId (k + remaining) attempt s) as (s1 & _ & ->).
    rewrite Hj.
    assert (fst (pollLoop w jobId agentId (k + remaining) (S attempt)
                   (snd (sleep w pollInterval s1)))
            = fst (pollLoop w jobId agentId remaining (attempt + S k) s)) as Hgoal.
    { rewrite IH.
      - replace (S attempt + k)%nat with (attempt + S k)%nat by lia. apply pollLoop_outcome.
      - intros i Hi. destruct (Hp (S i)) as (j' & Hj' & Hnt'); [lia|].
        exists j'. split; [|done]. by replace (S attempt + i)%nat with (attempt + S i)%nat by lia. }
    destruct (status j); try done.
Qed.

(** The poll that settles [pollJobStatus]: the first one, among the
    [maxAttempts], that is not answered with a pending or running job. *)
Lemma pollJobStatus_settles jobId agentId k s :
  (k < maxAttempts)%nat →
  stillPending w jobId 0 k →
  fst (pollJobStatus w jobId agentId s)
  = match getJob w jobId k with
    | Throw e => Throw e
    | Ok job =>
        match status job with
        | completed =>
            Ok (match result_json job with
                | Some res => summary agentId res
                | None => "Completed"
                end)
        | failed => Throw (JsError (str_or (Api.error job) "Job failed"))
        | cancelled => Throw (JsError "Job cancelled")
        | pending | running =>
            fst (pollLoop w jobId agentId (maxAttempts - S k) (S k) s)
        end
    end.
Proof.
  intros Hk Hp. unfold pollJobStatus.
  replace maxAttempts with (k + S (maxAttempts - S k))%nat at 1 by lia.
  rewrite pollLoop_skip by done. simpl plus.
  destruct (pollLoop_step jobId agentId (maxAttempts - S k) k s) as (s1 & _ & ->).
  destruct (getJob w jobId k) as [job|e]; [|done].
  destruct (status job); try done; apply pollLoop_outcome.
Qed.

(** After [maxAttempts] polls that all find the job pending or running. *)
Lemma pollJobStatus_times_out jobId agentId s :
  stillPending w jobId 0 maxAttempts →
  fst (pollJobStatus w jobId agentId s) = Throw (JsError "Job timed out").
Proof.
  intros Hp. unfold pollJobStatus.
  replace maxAttempts with (maxAttempts + 0)%nat at 1 by lia.
  by rewrite pollLoop_skip.
Qed.

(** One round of the loop again, with the one poll it sends counted. *)
Lemma pollLoop_step_polls jobId agentId remaining attempt s :
  ∃ s1 t1, trace s1 = trace s ++ t1
    ∧ Forall (pollEvent (Some jobId)) t1
    ∧ polls t1 = 1%nat
    ∧ pollLoop w jobId agentId (S remaining) attempt s =
      match getJob w jobId attempt with
      | Throw e => (Throw e, s1)
      | Ok job =>
          match status job with
          | completed =>
              (Ok (match result_json job with
                   | Some res => summary agentId res
                   | None => "Completed"
                   end), s1)
          | failed => (Throw (JsError (str_or (Api.error job) "Job failed")), s1)
          | cancelled => (Throw (JsError "Job cancelled"), s1)
          | pending | running =>
              pollLoop w jobId agentId remaining (S attempt)
                (snd (sleep w pollInterval s1))
          end
      end.
Proof.
  destruct (await_run (GetJob jobId) (getJob w jobId attempt) s)
    as (s1 & E & Hst & t & Ht & F).
  exists s1, (Call (GetJob jobId) :: t). split; [done|]. split; [|split].
  { constructor; [done|]. eapply Forall_impl; [exact F|]. apply pollEvent_any. }
  { change (Call (GetJob jobId) :: t) with ([Call (GetJob jobId)] ++ t).
    by rewrite polls_app, (pollEvents_no_poll t F). }
  simpl. unfold bind at 1. rewrite E.
  destruct (getJob w jobId attempt) as [job|e]; [|done].
  destruct (status job); try done; try (by destruct (result_json job));
    unfold bind; destruct (sleep_run s1) as (s2 & E2 & _); by rewrite E2.
Qed.

Lemma stillPending_shift jobId attempt k :
  (∃ j, getJob w jobId attempt = Ok j ∧ terminal (status j) = false) →
  stillPending w jobId (S attempt) k →
  stillPending w jobId attempt (S k).
Proof.
  intros Hj Hp [|i] Hi.
  - by rewrite Nat.add_0_r.
  - destruct (Hp i) as (j' & Hj' & Hnt); [lia|]. exists j'. split; [|done].
    by replace (attempt + S i)%nat with (S attempt + i)%nat by lia.
Qed.

(** The loop from [attempt] on, with [remaining] attempts left: either
    all of them are used up on a job found pending or running, and the
    loop gives up, or poll [k] is the first that does not find it so, and
    settles the loop as the (k+1)-th and last poll sent.  The loop sends
    nothing but polls of its job and sleeps. *)
Lemma pollLoop_run_ends jobId agentId remaining :
  ∀ attempt s,
    ∃ t, trace (snd (pollLoop w jobId agentId remaining attempt s)) = trace s ++ t
      ∧ Forall (pollEvent (Some jobId)) t
      ∧ ((stillPending w jobId attempt remaining
          ∧ polls t = remaining
          ∧ fst (pollLoop w jobId agentId remaining attempt s)
            = Throw (JsError "Job timed out"))
         ∨ ∃ k, (k < remaining)%nat
             ∧ stillPending w jobId attempt k
             ∧ polls t = S k
             ∧ Settles agentId (getJob w jobId (attempt + k))
                       (fst (pollLoop w jobId agentId remaining attempt s))).
Proof.
  induction remaining as [|remaining IH]; intros attempt s.
  - exists []. split; [simpl; by rewrite app_nil_r|]. split; [constructor|].
    left. split; [intros i Hi; lia|]. done.
  - destruct (pollLoop_step_polls jobId agentId remaining attempt s)
      as (s1 & t1 & Ht1 & F1 & P1 & ->).
    assert (stillPending w jobId attempt 0) as Hnone by (intros i Hi; lia).
    destruct (getJob w jobId attempt) as [job|e] eqn:Hjob.
    2: { exists t1. split; [done|]. split; [done|]. right. exists 0%nat.
         split; [lia|]. split; [done|]. split; [done|].
         rewrite Nat.add_0_r, Hjob. constructor. }
    destruct (status job) eqn:Hst.
    3: { exists t1. split; [done|]. split; [done|]. right. exists 0%nat.
         split; [lia|]. split; [done|]. split; [done|].
         rewrite Nat.add_0_r, Hjob. by constructor. }
    3: { exists t1. split; [done|]. split; [done|]. right. exists 0%nat.
         split; [lia|]. split; [done|]. split; [done|].
         rewrite Nat.add_0_r, Hjob. by constructor. }
    3: { exists t1. split; [done|]. split; [done|]. right. exists 0%nat.
         split; [lia|]. split; [done|]. split; [done|].
         rewrite Nat.add_0_r, Hjob. by constructor. }
    all: assert (∃ j, getJob w jobId attempt = Ok j ∧ terminal (status j) = false)
           as Hhere by (exists job; by rewrite Hst).
    all: destruct (sleep_run s1) as (s2 & E2 & _ & t2 & Ht2 & F2).
    all: rewrite E2; cbn [snd].
    all: destruct (IH (S attempt) s2) as (t3 & Ht3 & F3 & Hcase).
    all: exists (t1 ++ t2 ++ t3).
    all: split; [by rewrite Ht3, Ht2, Ht1, <- !app_assoc|].
    all: split; [apply Forall_app; split; [done|]; apply Forall_app; split; [|done];
                 eapply Forall_impl; [exact F2|]; apply pollEvent_any|].
    all: rewrite !polls_app, P1, (pollEvents_no_poll t2 F2).
    all: destruct Hcase as [(Hp & Hn & Ho)|(k & Hk & Hp & Hn & Ho)].
    all: try (left; split; [by apply stillPending_shift|]; split; [simpl; lia | done]).
    all: right; exists (S k); split; [lia|]; split; [by apply stillPending_shift|].
    all: split; [simpl; lia|].
    all: by replace (attempt + S k)%nat with (S attempt + k)%nat by lia.
Qed.

(** [pollJobStatus] sends nothing but polls of its job and sleeps, and
    the number of its polls and the way it ends are those the backend's
    answers determine. *)
Lemma pollJobStatus_polling_ends jobId agentId s :
  ∃ t, trace (snd (pollJobStatus w jobId agentId s)) = trace s ++ t
    ∧ Forall (pollEvent (Some jobId)) t
    ∧ PollingEnds w jobId agentId (polls t) (fst (pollJobStatus w jobId agentId s)).
Proof.
  unfold pollJobStatus.
  destruct (pollLoop_run_ends jobId agentId maxAttempts 0%nat s)
    as (t & Ht & F & [(Hp & Hn & Ho)|(k & Hk & Hp & Hn & Ho)]).
  - exists t. split; [done|]. split; [done|].
    rewrite Hn, Ho. change maxAttempts with 600%nat. by constructor.
  - exists t. split; [done|]. split; [done|].
    rewrite Hn. constructor; [exact Hk | done | done].
Qed.

End Polling.

(** ** The database page: the polling loop of [runAnalysis] *)

Section PagePolling.
Import DatabasePage.
Variable w : World.

Lemma page_pollLoop_step jobId remaining attempt s :
  pollLoop w jobId (S remaining) attempt s =
  match getJob w jobId attempt with
  | Throw e => (Throw e, polled jobId s)
  | Ok job =>
      match status job with
      | completed => (Ok tt, polled jobId s)
      | failed =>
          (Throw (JsError (str_or (Api.error job) "Analysis failed")), polled jobId s)
      | cancelled => (Throw (JsError "Analysis cancelled"), polled jobId s)
      | pending | running => pollLoop w jobId remaining (S attempt) (slept (polled jobId s))
      end
  end.
Proof.
  simpl. unfold bind, await, bind, emit, settle. simpl.
  destruct (getJob w jobId attempt) as [job|e]; [|done].
  by destruct (status job).
Qed.

Lemma page_pollLoop_comp jobId remaining :
  ∀ attempt s, comp (snd (pollLoop w jobId remaining attempt s)) = comp s.
Proof.
  induction remaining as [|remaining IH]; intros attempt s; [done|].
  rewrite page_pollLoop_step.
  destruct (getJob w jobId attempt) as [job|e]; [|done].
  destruct (status job); try done; by rewrite IH.
Qed.

Lemma page_pollLoop_outcome jobId remaining :
  ∀ attempt s s',
    fst (pollLoop w jobId remaining attempt s) = fst (pollLoop w jobId remaining attempt s').
Proof.
  induction remaining as [|remaining IH]; intros attempt s s'; [done|].
  rewrite !page_pollLoop_step.
  destruct (getJob w jobId attempt) as [job|e]; [|done].
  destruct (status job); try done; apply IH.
Qed.

Lemma page_pollLoop_skip jobId k :
  ∀ remaining attempt s,
    stillPending w jobId attempt k →
    fst (pollLoop w jobId (k + remaining) attempt s)
    = fst (pollLoop w jobId remaining (attempt + k) s).
Proof.
  induction k as [|k IH]; intros remaining attempt s Hp.
  - by rewrite Nat.add_0_r.
  - destruct (Hp 0%nat) as (j & Hj & Hnt); [lia|]. rewrite Nat.add_0_r in Hj.
    simpl plus. rewrite page_pollLoop_step, Hj.
    assert (fst (pollLoop w jobId (k + remaining) (S attempt) (slept (polled jobId s)))
            = fst (pollLoop w jobId remaining (attempt + S k) s)) as Hgoal.
    { rewrite IH.
      - replace (S attempt + k)%nat with (attempt + S k)%nat by lia.
        apply page_pollLoop_outcome.
      - intros i Hi. destruct (Hp (S i)) as (j' & Hj' & Hnt'); [lia|].
        exists j'. split; [|done].
        by replace (S attempt + i)%nat with (attempt + S i)%nat by lia. }
    destruct (status j); try done.
Qed.

(** The loop of [runAnalysis] is settled by the first poll, among the
    [maxAttempts], that is not answered with a pending or running job. *)
Lemma page_pollLoop_settles jobId k s :
  (k < maxAttempts)%nat →
  stillPending w jobId 0 k →
  fst (pollLoop w jobId maxAttempts 0 s)
  = match getJob w jobId k with
    | Throw e => Throw e
    | Ok job =>
        match status job with
        | completed => Ok tt
        | failed => Throw (JsError (str_or (Api.error job) "Analysis failed"))
        | cancelled => Throw (JsError "Analysis cancelled")
        | pending | running => fst (pollLoop w jobId (maxAttempts - S k) (S k) s)
        end
    end.
Proof.
  intros Hk Hp.
  replace maxAttempts with (k + S (maxAttempts - S k))%nat at 1 by lia.
  rewrite page_pollLoop_skip by done. simpl plus. rewrite page_pollLoop_step.
  destruct (getJob w jobId k) as [job|e]; [|done].
  destruct (status job); try done; apply page_pollLoop_outcome.
Qed.

(** When the polls exhaust the attempts, the loop just ends. *)
Lemma page_pollLoop_exhausted jobId s :
  stillPending w jobId 0 maxAttempts →
  fst (pollLoop w jobId maxAttempts 0 s) = Ok tt.
Proof.
  intros Hp. replace maxAttempts with (maxAttempts + 0)%nat at 1 by lia.
  by rewrite page_pollLoop_skip.
Qed.

(** What [runAnalysis] leaves in the page's [error] cell, by the way its
    polling loop ended. *)
Lemma runAnalysis_error db jobId s :
  db ≠ 0 →
  startJob w (RunExplorerBackground db) = Ok jobId →
  error (comp (snd (runAnalysis (Some db) w s)))
  = match fst (pollLoop w jobId maxAttempts 0 s) with
    | Ok _ => None
    | Throw err => Some (error_message err "Analysis failed")
    end.
Proof.
  intros Hdb Hstart. unfold runAnalysis.
  rewrite (proj2 (Z.eqb_neq db 0) Hdb).
  unfold bind at 1, modify at 1, bind at 1, modify at 1, try_catch_finally.
  unfold bind at 1, await at 1, bind at 1, emit at 1, bind at 1, settle at 1.
  rewrite Hstart. unfold bind at 1.
  match goal with |- context [pollLoop w jobId maxAttempts 0 ?s0] =>
    pose proof (page_pollLoop_outcome jobId maxAttempts 0%nat s s0) as Ho;
    pose proof (page_pollLoop_comp jobId maxAttempts 0%nat s0) as Hc;
    destruct (pollLoop w jobId maxAttempts 0 s0) as [o s1]
  end.
  rewrite Ho. clear Ho. simpl in Hc.
  destruct o as [[]|err]; simpl; unfold setError, setAnalyzing; simpl; by rewrite ?Hc.
Qed.

(** So a job that outlives the attempts leaves no error on the page. *)
Lemma runAnalysis_exhausted_silent db jobId s :
  db ≠ 0 →
  startJob w (RunExplorerBackground db) = Ok jobId →
  stillPending w jobId 0 maxAttempts →
  error (comp (snd (runAnalysis (Some db) w s))) = None.
Proof.
  intros Hdb Hstart Hp. rewrite (runAnalysis_error db jobId s Hdb Hstart).
  by rewrite page_pollLoop_exhausted.
Qed.

End PagePolling.

(** ** AgentPanel: one agent's step and the Run All loop *)

Section RunAll.
Import AgentPanel.
Variable props : AgentPanelProps.
Variable w : World.

Lemma updateAgentStatus_run a st res s :
  updateAgentStatus a st res s
  = (Ok tt, mkSt (setAgentStatus (fun prev => <[a := mkStatus st res]> prev) (comp s))
                 (trace s ++ [StatusSet a st res]) (clock s)).
Proof. reflexivity. Qed.

(** The outcome of an agent's [try] block, by the backend's answers. *)
Lemma agentOutcome_eq a r :
  startRequest props a = Some r →
  agentOutcome props w a
  = match startJob w r with
    | Ok jobId => fst (pollJobStatus w jobId a mounted)
    | Throw e => Throw e
    end.
Proof.
  intros Hr. unfold agentOutcome, startAgentJob. rewrite Hr.
  unfold bind at 1.
  destruct (await_run w r (startJob w r) mounted) as (s1 & -> & _).
  destruct (startJob w r) as [jobId|e]; [|done].
  unfold bind, modify. simpl. apply pollLoop_outcome.
Qed.

Lemma agentOutcome_unknown a :
  startRequest props a = None →
  agentOutcome props w a = Throw (JsError ("Unknown agent: " +:+ a)).
Proof. intros Hr. unfold agentOutcome, startAgentJob. by rewrite Hr. Qed.

(** The [try]/[catch]/[finally] of one loop iteration: it never throws,
    leaves the agent's settled status, and its events are the start
    request, the polling of the job that request returned, and the final
    status update. *)
Lemma iteration_run a r s :
  startRequest props a = Some r →
  ∃ s' body,
    try_catch_finally
      (jobId <- startAgentJob props w a;;
       modify (setCurrentJobId (Some jobId));;
       res <- pollJobStatus w jobId a;;
       updateAgentStatus a AgentState.success (Some res))
      (fun err => updateAgentStatus a AgentState.error (Some (error_message err "Failed")))
      (modify (setCurrentJobId None)) s = (Ok tt, s')
    ∧ agentStatus (comp s')
      = <[a := settled (agentOutcome props w a)]> (agentStatus (comp s))
    ∧ Forall (pollEvent (startedJob w r)) body
    ∧ stepEnds w a r (polls body) (agentOutcome props w a)
    ∧ trace s' = trace s ++ Call r :: body
                   ++ [StatusSet a (state (settled (agentOutcome props w a)))
                                   (result (settled (agentOutcome props w a)))].
Proof.
  intros Hr. rewrite (agentOutcome_eq a r Hr).
  unfold try_catch_finally, startAgentJob, startedJob, stepEnds. rewrite Hr.
  unfold bind at 1.
  destruct (await_run w r (startJob w r) s) as (s1 & -> & Hst1 & t1 & Ht1 & F1).
  destruct (startJob w r) as [jobId|e].
  - unfold bind at 1. unfold modify at 1.
    set (s2 := mkSt (setCurrentJobId (Some jobId) (comp s1)) (trace s1) (clock s1)).
    unfold bind at 1.
    pose proof (pollLoop_emits w jobId a maxAttempts 0%nat s2) as (Hst3 & t3 & Ht3 & F3).
    pose proof (pollLoop_outcome w jobId a maxAttempts 0%nat s2 mounted) as Ho.
    destruct (pollJobStatus_polling_ends w jobId a s2) as (t3' & Ht3' & _ & Hends).
    fold (pollJobStatus w jobId a s2) in *. fold (pollJobStatus w jobId a mounted) in *.
    rewrite Ht3 in Ht3'. apply app_inv_head in Ht3'. subst t3'.
    destruct (pollJobStatus w jobId a s2) as [o s3]. simpl in Ho, Hst3, Ht3, Hends.
    rewrite <- Ho.
    exists (mkSt (setCurrentJobId None
                    (setAgentStatus (fun prev => <[a := settled o]> prev) (comp s3)))
                 (trace s3 ++ [StatusSet a (state (settled o)) (result (settled o))])
                 (clock s3)), (t1 ++ t3).
    split; [by destruct o|]. split; [|split; [|split]].
    + simpl. by rewrite Hst3, Hst1.
    + apply Forall_app. split; [|done].
      eapply Forall_impl; [exact F1|]. apply pollEvent_any.
    + by rewrite polls_app, (pollEvents_no_poll t1 F1).
    + simpl. rewrite Ht3. simpl. rewrite Ht1. by rewrite <- !app_assoc.
  - exists (mkSt (setCurrentJobId None
                    (setAgentStatus (fun prev => <[a := settled (Throw e)]> prev) (comp s1)))
                 (trace s1 ++ [StatusSet a AgentState.error (Some (error_message e "Failed"))])
                 (clock s1)), t1.
    split; [done|]. split; [|split; [|split]].
    + simpl. by rewrite Hst1.
    + done.
    + by rewrite (pollEvents_no_poll t1 F1).
    + simpl. rewrite Ht1. by rewrite <- !app_assoc.
Qed.

(** The loop, when the stop flag it reads is not set. *)
Lemma runFrom_run rest :
  ∀ i s,
    Forall (fun a => is_Some (startRequest props (agent_id a))) rest →
    ∃ s' segs,
      runFrom props w false i rest s = (Ok tt, s')
      ∧ agentStatus (comp s')
        = foldl (fun m a => <[agent_id a := settled (agentOutcome props w (agent_id a))]> m)
                (agentStatus (comp s)) rest
      ∧ Forall2 (fun a t => agentSegment props w (agent_id a) t) rest segs
      ∧ trace s' = trace s ++ concat segs.
Proof.
  induction rest as [|a rest IH]; intros i s Hreq.
  - exists s, []. simpl. by rewrite app_nil_r.
  - apply Forall_cons in Hreq as [[r Hr] Hreq].
    simpl. unfold bind at 1. unfold modify at 1.
    unfold bind at 1. rewrite updateAgentStatus_run. simpl comp. simpl trace. simpl clock.
    unfold bind at 1.
    match goal with |- context [try_catch_finally _ _ _ ?s0] =>
      destruct (iteration_run (agent_id a) r s0 Hr) as (s1 & body & -> & Hst & F & He & Ht)
    end.
    destruct (IH (i + 1) s1 Hreq) as (s' & segs & -> & Hst' & Hsegs & Ht').
    exists s', ((StatusSet (agent_id a) AgentState.running None :: Call r :: body
                 ++ [StatusSet (agent_id a)
                       (state (settled (agentOutcome props w (agent_id a))))
                       (result (settled (agentOutcome props w (agent_id a))))]) :: segs).
    split; [done|]. split; [|split].
    + simpl. rewrite Hst', Hst. simpl. by rewrite insert_insert_eq.
    + constructor; [|done]. exists r, body. done.
    + rewrite Ht', Ht. simpl. rewrite <- ?app_assoc. simpl. by rewrite <- ?app_assoc.
Qed.

(** The loop, when the stop flag it reads is set: every remaining agent
    is marked as stopped and nothing is requested. *)
Lemma runFrom_stopped rest i s :
  runFrom props w true i rest s
  = (Ok tt,
     mkSt (setAgentStatus
             (fun prev =>
                foldl (fun m a => <[agent_id a := mkStatus AgentState.error
                                                    (Some "Stopped by user")]> m) prev rest)
             (comp s))
          (trace s ++ map (fun a => StatusSet (agent_id a) AgentState.error
                                      (Some "Stopped by user")) rest)
          (clock s)).
Proof.
  assert (∀ l s, markStopped l s
    = (Ok tt,
       mkSt (setAgentStatus
               (fun prev =>
                  foldl (fun m a => <[agent_id a := mkStatus AgentState.error
                                                      (Some "Stopped by user")]> m) prev l)
               (comp s))
            (trace s ++ map (fun a => StatusSet (agent_id a) AgentState.error
                                        (Some "Stopped by user")) l)
            (clock s))) as Hmark.
  { clear. induction l as [|b l IH]; intros s.
    - simpl. unfold ret. destruct s as [[] ? ?]. simpl. by rewrite app_nil_r.
    - simpl. unfold bind. rewrite updateAgentStatus_run, IH. simpl.
      by rewrite <- app_assoc. }
  destruct rest as [|a rest]; [|apply Hmark].
  simpl. unfold ret. destruct s as [[] ? ?]. simpl. by rewrite app_nil_r.
Qed.

End RunAll.

(** ** AgentPanel: what a run leaves in the trace *)

Section RunAllTrace.
Import AgentPanel.
Variable props : AgentPanelProps.
Variable w : World.

Lemma added_app (tr t : list Event) : added tr (tr ++ t) = t.
Proof. unfold added. by rewrite drop_app_length. Qed.

Lemma milestones_app t1 t2 : milestones (t1 ++ t2) = milestones t1 ++ milestones t2.
Proof. apply List.filter_app. Qed.

Lemma requests_app t1 t2 : requests (t1 ++ t2) = requests t1 ++ requests t2.
Proof. apply omap_app. Qed.

Lemma startRequest_single a r :
  startRequest props a = Some r → singleAgentStart r = true ∧ pipelineRequest r = false.
Proof.
  unfold startRequest.
  repeat (destruct (String.eqb a _); [intros [= <-]; done|]). done.
Qed.

(** An agent name has a start request exactly when it is one of the five. *)
Lemma startRequest_known a :
  is_Some (startRequest props a) ↔ a ∈ map agent_id agents.
Proof.
  unfold startRequest. simpl. rewrite !elem_of_cons, elem_of_nil.
  destruct (String.eqb_spec a "explorer"); [subst; split; eauto|].
  destruct (String.eqb_spec a "observer"); [subst; split; eauto|].
  destruct (String.eqb_spec a "architect"); [subst; split; eauto|].
  destruct (String.eqb_spec a "gardener"); [subst; split; eauto 6|].
  destruct (String.eqb_spec a "partitioner"); [subst; split; eauto 7|].
  split; [by intros [? ?]| intuition].
Qed.

Lemma pollEvents_no_milestone job body :
  Forall (pollEvent job) body → milestones body = [].
Proof.
  induction 1 as [|e body He _ IH]; [done|].
  unfold milestones in *. simpl. rewrite IH.
  by destruct e as [[]| | | | |].
Qed.

Lemma pollEvents_requests job body :
  Forall (pollEvent job) body →
  List.filter singleAgentStart (requests body) = []
  ∧ List.filter pipelineRequest (requests body) = [].
Proof.
  induction 1 as [|e body He _ [IH1 IH2]]; [done|].
  destruct e as [[]| | | | |]; simpl in *; done.
Qed.

Lemma segment_milestones a t :
  agentSegment props w a t →
  ∃ r, startRequest props a = Some r
    ∧ milestones t
      = [ StatusSet a AgentState.running None; Call r;
          StatusSet a (state (settled (agentOutcome props w a)))
                      (result (settled (agentOutcome props w a))) ].
Proof.
  intros (r & body & Hr & F & _ & ->). exists r. split; [done|].
  destruct (startRequest_single a r Hr) as [Hs _].
  change (milestones (?x :: ?y :: ?l)) with (milestones ([x; y] ++ l)).
  rewrite !milestones_app, (pollEvents_no_milestone _ _ F).
  unfold milestones. simpl. by rewrite Hs.
Qed.

Lemma segment_requests a t :
  agentSegment props w a t →
  ∃ r, startRequest props a = Some r
    ∧ List.filter singleAgentStart (requests t) = [r]
    ∧ List.filter pipelineRequest (requests t) = [].
Proof.
  intros (r & body & Hr & F & _ & ->). exists r. split; [done|].
  destruct (startRequest_single a r Hr) as [Hs Hp].
  destruct (pollEvents_requests _ _ F) as [F1 F2].
  simpl. rewrite requests_app, !List.filter_app, F1, F2, Hs, Hp. done.
Qed.

Lemma pollsLatestJob_body cur body tl :
  Forall (pollEvent cur) body →
  pollsLatestJob w cur tl →
  pollsLatestJob w cur (body ++ tl).
Proof.
  induction 1 as [|e body He _ IH]; intros Htl; [done|].
  destruct e as [[]| | | | |]; simpl in *; try done;
    first [by apply IH | by split; [|apply IH]].
Qed.

Lemma segments_poll_latest rest segs tl :
  Forall2 (fun a t => agentSegment props w (agent_id a) t) rest segs →
  (∀ cur, pollsLatestJob w cur tl) →
  ∀ cur, pollsLatestJob w cur (concat segs ++ tl).
Proof.
  intros Hsegs Htl. induction Hsegs as [|a t rest segs Hseg _ IH]; intros cur; [apply Htl|].
  destruct Hseg as (r & body & Hr & F & _ & ->).
  destruct (startRequest_single _ r Hr) as [Hs _].
  assert (pollsLatestJob w (startedJob w r)
            (body ++ [StatusSet (agent_id a)
                        (state (settled (agentOutcome props w (agent_id a))))
                        (result (settled (agentOutcome props w (agent_id a))))]
             ++ concat segs ++ tl)) as Hgoal.
  { apply pollsLatestJob_body; [done|]. simpl. apply IH. }
  unfold startedJob in Hgoal. simpl concat. rewrite <- ?app_assoc. simpl.
  rewrite <- ?app_assoc.
  destruct r; simpl in Hs; try discriminate; exact Hgoal.
Qed.

(** A run whose closure reads an unset stop flag; it ends the way the
    completion callback does. *)
Lemma runAll_run s :
  ∃ s' segs,
    runAllAgentsSequentially props w false s
    = (default (Ok tt) (onAnalysisComplete props), s')
    ∧ agentStatus (comp s')
      = foldl (fun m a => <[agent_id a := settled (agentOutcome props w (agent_id a))]> m)
              initialStatus agents
    ∧ runningAll (comp s') = false
    ∧ shouldStop (comp s') = false
    ∧ currentStep (comp s') = -1
    ∧ Forall2 (fun a t => agentSegment props w (agent_id a) t) agents segs
    ∧ trace s' = trace s ++ concat segs
                   ++ completionEvents props.
Proof.
  unfold runAllAgentsSequentially.
  do 4 (unfold bind at 1; unfold modify at 1).
  unfold bind at 1.
  match goal with |- context [runFrom props w false 0 agents ?s0] =>
    destruct (runFrom_run props w agents 0 s0) as (s1 & segs & -> & Hst & Hsegs & Ht)
  end.
  { repeat constructor; eexists; reflexivity. }
  do 3 (unfold bind at 1; unfold modify at 1).
  unfold notifyComplete, completionEvents. simpl in Hst, Ht.
  destruct (onAnalysisComplete props) as [o|].
  - unfold bind, emit, settle. simpl.
    eexists _, segs. split; [by destruct o|]. simpl.
    repeat split; try done. by rewrite Ht, <- app_assoc.
  - eexists _, segs. split; [reflexivity|]. simpl.
    repeat split; try done. by rewrite Ht, !app_nil_r.
Qed.

(** The statuses a run leaves for the five agents. *)
Lemma runAll_statuses s a :
  a ∈ map agent_id agents →
  agentStatus (comp (snd (runAllAgentsSequentially props w false s))) !! a
  = Some (settled (agentOutcome props w a)).
Proof.
  intros Ha. destruct (runAll_run s) as (s' & segs & -> & Hst & _).
  simpl snd. rewrite Hst. simpl foldl.
  simpl in Ha. rewrite !elem_of_cons, elem_of_nil in Ha.
  destruct Ha as [->|[->|[->|[->|[->|[]]]]]];
    repeat (rewrite lookup_insert_ne by done); by rewrite lookup_insert_eq.
Qed.

(** The milestones of a run: each agent is set running, its job start is
    requested, and it is settled before the next agent is touched. *)
Lemma runAll_milestones s :
  milestones (added (trace s) (trace (snd (runAllAgentsSequentially props w false s))))
  = flat_map (fun r =>
                let a := r.1 in
                [ StatusSet a AgentState.running None; Call r.2;
                  StatusSet a (state (settled (agentOutcome props w a)))
                              (result (settled (agentOutcome props w a))) ])
             (zip (map agent_id agents) (fiveStarts props)).
Proof.
  destruct (runAll_run s) as (s' & segs & -> & _ & _ & _ & _ & Hsegs & Ht).
  simpl snd. rewrite Ht. clear Ht.
  rewrite added_app, milestones_app.
  replace (milestones (completionEvents props))
    with (@nil Event) by (unfold completionEvents; by destruct (onAnalysisComplete props)).
  rewrite app_nil_r.
  unfold agents in Hsegs.
  repeat match goal with
  | H : Forall2 _ (_ :: _) _ |- _ =>
      apply Forall2_cons_inv_l in H as (? & ? & ?%segment_milestones & H & ->)
  | H : Forall2 _ [] _ |- _ => apply Forall2_nil_inv_l in H as ->
  end.
  repeat match goal with
  | H : ∃ r, startRequest _ _ = Some r ∧ _ |- _ =>
      let Hr := fresh "Hr" in
      destruct H as (? & Hr & H); unfold startRequest in Hr; simpl in Hr;
      injection Hr as <-
  end.
  simpl concat. rewrite !milestones_app, app_nil_r.
  repeat match goal with H : milestones _ = _ |- _ => rewrite H; clear H end.
  reflexivity.
Qed.

(** The trace of a run: one segment per agent, in the order of [agents],
    then the completion callback. *)
Lemma runAll_segments s :
  ∃ segs,
    added (trace s) (trace (snd (runAllAgentsSequentially props w false s)))
    = concat segs ++ completionEvents props
    ∧ Forall2 (agentSegment props w)
              ["explorer"; "observer"; "architect"; "gardener"; "partitioner"] segs.
Proof.
  destruct (runAll_run s) as (s' & segs & -> & _ & _ & _ & _ & Hsegs & Ht).
  exists segs. cbn [snd]. rewrite Ht, added_app. split; [done|].
  change ["explorer"; "observer"; "architect"; "gardener"; "partitioner"]
    with (agent_id <$> agents).
  by apply Forall2_fmap_l.
Qed.

(** The requests of a run: the five single-agent starts, no pipeline
    request, and polls of the latest started job only. *)
Lemma runAll_requests s :
  let t := added (trace s) (trace (snd (runAllAgentsSequentially props w false s))) in
  List.filter singleAgentStart (requests t) = fiveStarts props
  ∧ List.filter pipelineRequest (requests t) = []
  ∧ pollsLatestJob w None t.
Proof.
  destruct (runAll_run s) as (s' & segs & -> & _ & _ & _ & _ & Hsegs & Ht).
  simpl snd. rewrite Ht. clear Ht.
  rewrite added_app. split; [|split].
  3: { apply (segments_poll_latest agents); [done|].
       intros cur. unfold completionEvents. by destruct (onAnalysisComplete props). }
  all: rewrite requests_app, List.filter_app.
  all: replace (requests (completionEvents props))
         with (@nil Request)
         by (unfold completionEvents; by destruct (onAnalysisComplete props)).
  all: simpl List.filter at 2; rewrite app_nil_r.
  all: unfold agents in Hsegs.
  all: repeat match goal with
  | H : Forall2 _ (_ :: _) _ |- _ =>
      apply Forall2_cons_inv_l in H as (? & ? & ?%segment_requests & H & ->)
  | H : Forall2 _ [] _ |- _ => apply Forall2_nil_inv_l in H as ->
  end.
  all: repeat match goal with
  | H : ∃ r, startRequest _ _ = Some r ∧ _ |- _ =>
      let Hr := fresh "Hr" in
      destruct H as (? & Hr & ? & ?); unfold startRequest in Hr; simpl in Hr;
      injection Hr as <-
  end.
  all: simpl concat; rewrite !requests_app, !List.filter_app.
  all: repeat match goal with H : List.filter _ _ = _ |- _ => rewrite H; clear H end.
  all: reflexivity.
Qed.

Lemma notifyComplete_run (s : St Panel) :
  notifyComplete props s
  = (default (Ok tt) (onAnalysisComplete props),
     mkSt (comp s) (trace s ++ completionEvents props) (clock s)).
Proof.
  unfold notifyComplete, completionEvents.
  destruct (onAnalysisComplete props) as [o|]; simpl.
  - unfold bind, emit, settle. simpl. by destruct o.
  - unfold ret. destruct s. simpl. by rewrite app_nil_r.
Qed.

(** A run whose closure reads a set stop flag: no request is sent and
    all five agents are marked as stopped. *)
Lemma runAll_flag_set s a :
  a ∈ map agent_id agents →
  requests (added (trace s) (trace (snd (runAllAgentsSequentially props w true s)))) = []
  ∧ agentStatus (comp (snd (runAllAgentsSequentially props w true s))) !! a
    = Some (mkStatus AgentState.error (Some "Stopped by user")).
Proof.
  intros Ha. split.
  all: unfold runAllAgentsSequentially.
  all: do 4 (unfold bind at 1; unfold modify at 1).
  all: unfold bind at 1; rewrite runFrom_stopped.
  all: do 3 (unfold bind at 1; unfold modify at 1).
  all: rewrite notifyComplete_run.
  all: cbn [snd trace comp agentStatus setShouldStop setRunningAll setCurrentStep
            setAgentStatus].
  - rewrite <- app_assoc, added_app, requests_app.
    unfold completionEvents. by destruct (onAnalysisComplete props).
  - unfold agents. cbn [foldl agent_id]. simpl in Ha. rewrite !elem_of_cons, elem_of_nil in Ha.
    destruct Ha as [->|[->|[->|[->|[->|[]]]]]];
      repeat (rewrite lookup_insert_ne by done); by rewrite lookup_insert_eq.
Qed.

End RunAllTrace.

(** ** AgentPanel: how a polling loop ends, and how many polls it takes *)

Section PollingEnds.
Import AgentPanel.
Variable w : World.

Lemma panel_maxAttempts : maxAttempts = 600%nat.
Proof. by vm_compute. Qed.

Lemma page_maxAttempts : DatabasePage.maxAttempts = 600%nat.
Proof. by vm_compute. Qed.

Lemma stillPending_S jobId n :
  stillPending w jobId 0 n →
  (∃ j, getJob w jobId n = Ok j ∧ terminal (status j) = false) →
  stillPending w jobId 0 (S n).
Proof.
  intros Hp Hn i Hi. destruct (decide (i = n)) as [->|Hne]; [done|].
  apply Hp. lia.
Qed.

(** Among the first [n] polls, either all find the job pending or
    running, or there is a first one that does not. *)
Lemma first_settling_poll jobId n :
  stillPending w jobId 0 n
  ∨ ∃ k, (k < n)%nat ∧ stillPending w jobId 0 k
      ∧ ((∃ e, getJob w jobId k = Throw e)
         ∨ ∃ j, getJob w jobId k = Ok j ∧ terminal (status j) = true).
Proof.
  induction n as [|n [IH|(k & Hk & Hp & Hend)]].
  - left. intros i Hi. lia.
  - destruct (getJob w jobId n) as [j|e] eqn:Hj.
    + destruct (terminal (status j)) eqn:Ht.
      * right. exists n. split; [lia|]. split; [done|]. right. eauto.
      * left. apply stillPending_S; eauto.
    + right. exists n. split; [lia|]. split; [done|]. left. eauto.
  - right. exists k. split; [lia|]. done.
Qed.

(** [pollJobStatus] ends in one of three ways: a poll is answered with a
    terminal job, a poll fails, or [maxAttempts] polls were all answered
    with a pending or running job and the client gives up. *)
Lemma pollJobStatus_ends jobId agentId s :
  (stillPending w jobId 0 maxAttempts
   ∧ fst (pollJobStatus w jobId agentId s) = Throw (JsError "Job timed out"))
  ∨ ∃ k, (k < maxAttempts)%nat ∧ stillPending w jobId 0 k
      ∧ ((∃ e, getJob w jobId k = Throw e
             ∧ fst (pollJobStatus w jobId agentId s) = Throw e)
         ∨ ∃ j, getJob w jobId k = Ok j ∧ terminal (status j) = true).
Proof.
  destruct (first_settling_poll jobId maxAttempts) as [Hp|(k & Hk & Hp & Hend)].
  - left. split; [done|]. by apply pollJobStatus_times_out.
  - right. exists k. split; [done|]. split; [done|].
    destruct Hend as [[e He]|Hj]; [left|by right].
    exists e. split; [done|]. by rewrite (pollJobStatus_settles w jobId agentId k s), He.
Qed.

(** A loop with [remaining] attempts left sends at most [remaining] polls. *)
Lemma pollLoop_polls jobId agentId remaining :
  ∀ attempt s,
    ∃ t, trace (snd (pollLoop w jobId agentId remaining attempt s)) = trace s ++ t
      ∧ (polls t ≤ remaining)%nat.
Proof.
  induction remaining as [|remaining IH]; intros attempt s.
  - exists []. simpl. split; [by rewrite app_nil_r | done].
  - destruct (await_run w (GetJob jobId) (getJob w jobId attempt) s)
      as (s1 & E & _ & t1 & Ht1 & F1).
    assert (polls (Call (GetJob jobId) :: t1) = 1%nat) as Hone.
    { change (Call (GetJob jobId) :: t1) with ([Call (GetJob jobId)] ++ t1).
      by rewrite polls_app, (pollEvents_no_poll t1 F1). }
    assert (∃ t, trace s1 = trace s ++ t ∧ (polls t ≤ S remaining)%nat) as Hhere.
    { exists (Call (GetJob jobId) :: t1). split; [done|]. lia. }
    change (pollLoop w jobId agentId (S remaining) attempt s)
      with ((job <- await w (GetJob jobId) (getJob w jobId attempt);;
             match status job with
             | completed =>
                 match result_json job with
                 | Some res => ret (summary agentId res)
                 | None => ret "Completed"
                 end
             | failed => throw (JsError (str_or (Api.error job) "Job failed"))
             | cancelled => throw (JsError "Job cancelled")
             | pending | running =>
                 sleep w pollInterval;;
                 pollLoop w jobId agentId remaining (S attempt)
             end) s).
    unfold bind at 1. rewrite E.
    destruct (getJob w jobId attempt) as [job|e]; [|done].
    destruct (status job); try done; try (by destruct (result_json job)).
    all: unfold bind; destruct (sleep_run w s1) as (s2 & -> & _ & t2 & Ht2 & F2).
    all: destruct (IH (S attempt) s2) as (t3 & -> & Hle).
    all: exists (Call (GetJob jobId) :: t1 ++ t2 ++ t3).
    all: rewrite Ht2, Ht1, <- !app_assoc; split; [done|].
    all: change (Call (GetJob jobId) :: t1 ++ t2 ++ t3)
           with ([Call (GetJob jobId)] ++ t1 ++ t2 ++ t3).
    all: rewrite !polls_app, (pollEvents_no_poll t1 F1), (pollEvents_no_poll t2 F2).
    all: simpl; lia.
Qed.

End PollingEnds.

(** ** The claims about polling *)

Section PollingClaims.
Import AgentPanel.

Lemma pressRunAll_unset props w s :
  shouldStop (comp s) = false →
  pressRunAll props w s = runAllAgentsSequentially props w false s.
Proof. intros Hs. unfold pressRunAll. by rewrite Hs. Qed.

Lemma str_or_preserved (e : option string) (d m : string) :
  e = Some m → m ≠ "" → str_or e d = m.
Proof. intros -> Hm. simpl. by destruct (String.eqb_spec m ""). Qed.

Lemma str_or_fallback (e : option string) (d : string) :
  e ≠ Some (str_or e d) → (e = None ∨ e = Some "") ∧ str_or e d = d.
Proof.
  destruct e as [m|]; simpl; [|auto].
  destruct (String.eqb_spec m ""); [subst; auto | congruence].
Qed.

Lemma str_or_differs (e : option string) (d c : string) :
  e ≠ Some c → d ≠ c → str_or e d ≠ c.
Proof.
  destruct e as [m|]; simpl; [|auto].
  destruct (String.eqb_spec m ""); [auto | congruence].
Qed.

(** [e || d] is a non-empty text other than [d] exactly when [e] holds
    that text. *)
Lemma str_or_is (e : option string) (d c : string) :
  d ≠ c → c ≠ "" → str_or e d = c ↔ e = Some c.
Proof.
  intros Hd Hc. split.
  - destruct e as [m|]; simpl; [|done].
    destruct (String.eqb_spec m ""); [done | by intros ->].
  - intros ->. by apply str_or_preserved.
Qed.

(** C1, at the input where the code departs from it.  The explorer job of
    database 7 is found running by every poll.  [runAnalysis] sends its 600
    polls, then leaves the loop and goes on exactly as after a completed
    job: it refreshes the page's data and leaves no error, so the job is
    not treated as timed out.  On the same backend [pollJobStatus] of the
    agent panel does raise 'Job timed out'. *)
Theorem runAnalysis_exhausted_polls_not_timed_out :
  fst (DatabasePage.runAnalysis (Some 7) Scenario.explorerStuck DatabasePage.loaded) = Ok tt
  ∧ comp (snd (DatabasePage.runAnalysis (Some 7) Scenario.explorerStuck DatabasePage.loaded))
    = DatabasePage.mkPage false None
  ∧ polls (trace (snd (DatabasePage.runAnalysis (Some 7) Scenario.explorerStuck
                         DatabasePage.loaded))) = 600%nat
  ∧ last (trace (snd (DatabasePage.runAnalysis (Some 7) Scenario.explorerStuck
                        DatabasePage.loaded))) = Some FetchData
  ∧ fst (pollJobStatus Scenario.explorerStuck "job-explorer" "explorer" mounted)
    = Throw (JsError "Job timed out").
Proof. by vm_compute. Qed.

(** C6. When polling observes a job whose status is 'failed', the error
    raised to the caller carries the job's error field whenever that field
    is a non-empty string; the generic 'Job failed' stands in only when the
    field is null or empty.  The same text is what [useJobPolling] first
    passes to [onError], and what the agent's entry of the panel shows after
    Run All. *)
Theorem failed_job_error_message_preserved
    (props : AgentPanelProps) (w : World) (jobId agentId : string) (k : nat)
    (job : Job) (s : St Panel) :
  (k < 600)%nat →
  stillPending w jobId 0 k →
  getJob w jobId k = Ok job →
  status job = failed →
  fst (pollJobStatus w jobId agentId s)
  = Throw (JsError (str_or (Api.error job) "Job failed"))
  ∧ (∀ m, Api.error job = Some m → m ≠ "" → str_or (Api.error job) "Job failed" = m)
  ∧ (Api.error job ≠ Some (str_or (Api.error job) "Job failed") →
     (Api.error job = None ∨ Api.error job = Some "")
     ∧ str_or (Api.error job) "Job failed" = "Job failed")
  ∧ (∀ hookJob options h f,
       hookJob ≠ "" → JobPolling.mountedRef h = true →
       JobPolling.onError options = Some f →
       head (JobPolling.callbacks (JobPolling.fetchJob (Some hookJob) options (Ok job) true h))
       = Some (JobPolling.OnError (str_or (Api.error job) "Job failed")))
  ∧ (∀ r s0,
       startRequest props agentId = Some r → startJob w r = Ok jobId →
       shouldStop (comp s0) = false →
       agentStatus (comp (snd (pressRunAll props w s0))) !! agentId
       = Some (mkStatus AgentState.error (Some (str_or (Api.error job) "Job failed")))).
Proof.
  intros Hk Hp Hj Hst. rewrite <- panel_maxAttempts in Hk.
  assert (∀ s', fst (pollJobStatus w jobId agentId s')
                = Throw (JsError (str_or (Api.error job) "Job failed"))) as Hpoll.
  { intros s'. by rewrite (pollJobStatus_settles w jobId agentId k s'), Hj, Hst. }
  split; [apply Hpoll|]. split; [apply str_or_preserved|].
  split; [apply str_or_fallback|]. split.
  - intros hookJob options h f Hid Hm Hf. unfold JobPolling.fetchJob.
    rewrite fetchJob_proceeds, Hm by done. simpl. rewrite Hst.
    unfold JobPolling.invoke. rewrite Hf.
    destruct (f _) as [|err]; [done|].
    unfold JobPolling.caught. rewrite stopPolling_mounted. simpl.
    unfold JobPolling.invoke. rewrite Hf. by destruct (f _).
  - intros r s0 Hr Hstart Hstop. rewrite pressRunAll_unset by done.
    rewrite runAll_statuses by (apply (startRequest_known props); eauto).
    by rewrite (agentOutcome_eq props w agentId r Hr), Hstart, Hpoll.
Qed.

Lemma failed_job_error_message_preserved_witness :
  fst (pollJobStatus (Scenario.failedWith "connection refused") "job-explorer" "explorer"
         mounted)
  = Throw (JsError "connection refused").
Proof.
  refine (proj1 (failed_job_error_message_preserved Scenario.props7
                   (Scenario.failedWith "connection refused") "job-explorer" "explorer" 0
                   (Scenario.jobIn "job-explorer" "explorer" failed
                      (Some "connection refused") None)
                   mounted _ _ _ _)).
  - lia.
  - intros i Hi. lia.
  - reflexivity.
  - reflexivity.
Defined.

(** C7, as stated, fails: a failed job whose error field is the
    cancellation text is reported exactly like a cancelled job, by
    [pollJobStatus] and by [runAnalysis] alike. *)
Lemma failed_job_reported_like_cancelled :
  getJob (Scenario.failedWith "Job cancelled") "job-1" 0
  = Ok (Scenario.jobIn "job-1" "explorer" failed (Some "Job cancelled") None)
  ∧ getJob Scenario.jobCancelled "job-1" 0 = Ok Scenario.cancelledJob
  ∧ fst (pollJobStatus (Scenario.failedWith "Job cancelled") "job-1" "explorer" mounted)
    = fst (pollJobStatus Scenario.jobCancelled "job-1" "explorer" mounted)
  ∧ comp (snd (DatabasePage.runAnalysis (Some 7) (Scenario.failedWith "Analysis cancelled")
                 DatabasePage.loaded))
    = comp (snd (DatabasePage.runAnalysis (Some 7) Scenario.jobCancelled
                   DatabasePage.loaded)).
Proof. by vm_compute. Qed.

(** C7, as the code has it.  A poll that finds the job 'cancelled' raises
    exactly the fixed text, 'Job cancelled' in [pollJobStatus] and
    'Analysis cancelled' in [runAnalysis], whatever the job's error field
    holds.  The polling of a failed job, on any backend, ends like that of
    the cancelled job exactly when the failed job's own error field is that
    very text: [pollJobStatus] then raises the same error, and
    [runAnalysis] leaves the same text on the page; in every other case
    what a failed job is reported with differs from the cancellation
    text. *)
Theorem cancelled_job_raises_fixed_text
    (w : World) (jobId agentId : string) (k : nat) (job : Job) (s : St Panel) :
  (k < 600)%nat →
  stillPending w jobId 0 k →
  getJob w jobId k = Ok job →
  status job = cancelled →
  fst (pollJobStatus w jobId agentId s) = Throw (JsError "Job cancelled")
  ∧ (∀ db page,
       db ≠ 0 → startJob w (RunExplorerBackground db) = Ok jobId →
       DatabasePage.error (comp (snd (DatabasePage.runAnalysis (Some db) w page)))
       = Some "Analysis cancelled")
  ∧ (∀ w' jobId' agentId' k' j s',
       (k' < 600)%nat → stillPending w' jobId' 0 k' →
       getJob w' jobId' k' = Ok j → status j = failed →
       fst (pollJobStatus w' jobId' agentId' s')
       = Throw (JsError (str_or (Api.error j) "Job failed"))
       ∧ (fst (pollJobStatus w' jobId' agentId' s') = fst (pollJobStatus w jobId agentId s)
          ↔ Api.error j = Some "Job cancelled"))
  ∧ (∀ w' jobId' k' j db db' page page',
       (k' < 600)%nat → stillPending w' jobId' 0 k' →
       getJob w' jobId' k' = Ok j → status j = failed →
       db ≠ 0 → startJob w (RunExplorerBackground db) = Ok jobId →
       db' ≠ 0 → startJob w' (RunExplorerBackground db') = Ok jobId' →
       DatabasePage.error (comp (snd (DatabasePage.runAnalysis (Some db') w' page')))
       = Some (str_or (Api.error j) "Analysis failed")
       ∧ (DatabasePage.error (comp (snd (DatabasePage.runAnalysis (Some db') w' page')))
          = DatabasePage.error (comp (snd (DatabasePage.runAnalysis (Some db) w page)))
          ↔ Api.error j = Some "Analysis cancelled")).
Proof.
  intros Hk Hp Hj Hst.
  assert (fst (pollJobStatus w jobId agentId s) = Throw (JsError "Job cancelled")) as Hpoll.
  { rewrite <- panel_maxAttempts in Hk.
    by rewrite (pollJobStatus_settles w jobId agentId k s), Hj, Hst. }
  assert (∀ db page,
            db ≠ 0 → startJob w (RunExplorerBackground db) = Ok jobId →
            DatabasePage.error (comp (snd (DatabasePage.runAnalysis (Some db) w page)))
            = Some "Analysis cancelled") as Hpage.
  { intros db page Hdb Hstart. rewrite <- page_maxAttempts in Hk.
    rewrite (runAnalysis_error w db jobId page Hdb Hstart).
    by rewrite (page_pollLoop_settles w jobId k page), Hj, Hst. }
  split; [exact Hpoll|]. split; [exact Hpage|]. split.
  - intros w' jobId' agentId' k' j s' Hk' Hp' Hj' Hst'.
    rewrite <- panel_maxAttempts in Hk'.
    rewrite Hpoll, (pollJobStatus_settles w' jobId' agentId' k' s'), Hj', Hst' by done.
    split; [done|]. rewrite <- (str_or_is (Api.error j) "Job failed" "Job cancelled") by done.
    split; [by intros [= ->] | by intros ->].
  - intros w' jobId' k' j db db' page page' Hk' Hp' Hj' Hst' Hdb Hstart Hdb' Hstart'.
    rewrite <- page_maxAttempts in Hk'.
    rewrite (Hpage db page Hdb Hstart), (runAnalysis_error w' db' jobId' page' Hdb' Hstart').
    rewrite (page_pollLoop_settles w' jobId' k' page'), Hj', Hst' by done.
    cbn [error_message].
    split; [done|].
    rewrite <- (str_or_is (Api.error j) "Analysis failed" "Analysis cancelled") by done.
    split; [by intros [= ->] | by intros ->].
Qed.

Lemma cancelled_job_raises_fixed_text_witness :
  fst (pollJobStatus Scenario.jobCancelled "job-1" "explorer" mounted)
  = Throw (JsError "Job cancelled").
Proof.
  refine (proj1 (cancelled_job_raises_fixed_text Scenario.jobCancelled "job-1" "explorer" 0
                   Scenario.cancelledJob mounted _ _ _ _)).
  - lia.
  - intros i Hi. lia.
  - reflexivity.
  - reflexivity.
Defined.

End PollingClaims.

(** ** The claims about Run All *)

Section RunAllClaims.
Import AgentPanel.



(** C3, at the input where the code departs from it.  Run All is pressed
    on a fresh panel; while the explorer's job is being polled the user
    presses Stop, the job is cancelled and the explorer ends with 'Job
    cancelled'.  The loop's check reads the stop flag its closure captured
    when Run All was pressed, which is still unset, so the four remaining
    agents are started and run; none is resolved as 'Stopped by user'. *)
Theorem stop_pressed_remaining_agents_still_run :
  trace (snd (pressRunAll Scenario.props7 Scenario.stopDuringExplorer mounted))
  = [ StatusSet "explorer" AgentState.running None;
      Call (RunExplorerBackground 7); Call (GetJob "job-explorer");
      Sleep 1000; StopPressed; Call (CancelJob "job-explorer");
      Call (GetJob "job-explorer");
      StatusSet "explorer" AgentState.error (Some "Job cancelled");
      StatusSet "observer" AgentState.running None;
      Call (RunObserverBackground 7); Call (GetJob "job-observer");
      StatusSet "observer" AgentState.success (Some "Completed");
      StatusSet "architect" AgentState.running None;
      Call (RunArchitectBackground 7); Call (GetJob "job-architect");
      StatusSet "architect" AgentState.success (Some "Completed");
      StatusSet "gardener" AgentState.running None;
      Call (RunGardenerBackground 7); Call (GetJob "job-gardener");
      StatusSet "gardener" AgentState.success (Some "Completed");
      StatusSet "partitioner" AgentState.running None;
      Call (RunPartitionerBackground 7); Call (GetJob "job-partitioner");
      StatusSet "partitioner" AgentState.success (Some "Completed");
      AnalysisComplete ]
  ∧ agentStatus (comp (snd (pressRunAll Scenario.props7 Scenario.stopDuringExplorer mounted)))
      !! "partitioner"
    = Some (mkStatus AgentState.success (Some "Completed")).
Proof. by vm_compute. Qed.

(** C4, as stated, fails when a job outlives the client's patience:
    every poll finds the explorer's job running, so that job never reaches
    a terminal state, yet once the 600 polls are spent the explorer is
    settled with 'Job timed out' and the observer is started, and after it
    the remaining three. *)
Lemma observer_started_though_explorer_job_never_ended :
  (∀ n, ∃ j, getJob Scenario.explorerStuck "job-explorer" n = Ok j
           ∧ terminal (status j) = false)
  ∧ milestones (trace (snd (pressRunAll Scenario.props7 Scenario.explorerStuck mounted)))
    = [ StatusSet "explorer" AgentState.running None;
        Call (RunExplorerBackground 7);
        StatusSet "explorer" AgentState.error (Some "Job timed out");
        StatusSet "observer" AgentState.running None;
        Call (RunObserverBackground 7);
        StatusSet "observer" AgentState.success (Some "Completed");
        StatusSet "architect" AgentState.running None;
        Call (RunArchitectBackground 7);
        StatusSet "architect" AgentState.success (Some "Completed");
        StatusSet "gardener" AgentState.running None;
        Call (RunGardenerBackground 7);
        StatusSet "gardener" AgentState.success (Some "Completed");
        StatusSet "partitioner" AgentState.running None;
        Call (RunPartitionerBackground 7);
        StatusSet "partitioner" AgentState.success (Some "Completed") ].
Proof.
  split; [|by vm_compute].
  intros n. eexists. split; reflexivity.
Qed.

(** C4, as the code has it.  A run of all agents (pressed while the stop
    flag is unset) executes exactly the five agents explorer, observer,
    architect, gardener, partitioner in that order.  Its trace is one
    segment per agent and then the completion callback.  In its segment
    the agent is set running and its job start is requested; the job that
    request returned is then polled, and nothing else is requested, until
    its polling ends: with the first poll not answered by a pending or
    running job (a completed job gives success with its summary; a failed
    or cancelled job, or a failed request, gives error), or, after 600
    polls, with 'Job timed out'.  Only then is the agent settled, and only
    after that does the next segment begin. *)
Theorem run_all_executes_five_agents_in_order
    (props : AgentPanelProps) (w : World) (s : St Panel) :
  shouldStop (comp s) = false →
  milestones (added (trace s) (trace (snd (pressRunAll props w s))))
  = [ StatusSet "explorer" AgentState.running None;
      Call (RunExplorerBackground (databaseId props));
      StatusSet "explorer" (state (settled (agentOutcome props w "explorer")))
                           (result (settled (agentOutcome props w "explorer")));
      StatusSet "observer" AgentState.running None;
      Call (RunObserverBackground (databaseId props));
      StatusSet "observer" (state (settled (agentOutcome props w "observer")))
                           (result (settled (agentOutcome props w "observer")));
      StatusSet "architect" AgentState.running None;
      Call (RunArchitectBackground (databaseId props));
      StatusSet "architect" (state (settled (agentOutcome props w "architect")))
                            (result (settled (agentOutcome props w "architect")));
      StatusSet "gardener" AgentState.running None;
      Call (RunGardenerBackground (databaseId props));
      StatusSet "gardener" (state (settled (agentOutcome props w "gardener")))
                           (result (settled (agentOutcome props w "gardener")));
      StatusSet "partitioner" AgentState.running None;
      Call (RunPartitionerBackground (databaseId props));
      StatusSet "partitioner" (state (settled (agentOutcome props w "partitioner")))
                              (result (settled (agentOutcome props w "partitioner"))) ]
  ∧ ∃ segs,
      added (trace s) (trace (snd (pressRunAll props w s)))
      = concat segs ++ completionEvents props
      ∧ Forall2 (agentSegment props w)
                ["explorer"; "observer"; "architect"; "gardener"; "partitioner"] segs.
Proof.
  intros Hstop. rewrite pressRunAll_unset by done. split.
  - by rewrite runAll_milestones.
  - apply runAll_segments.
Qed.

Lemma run_all_executes_five_agents_in_order_witness :
  milestones (trace (snd (pressRunAll Scenario.props7 Scenario.allComplete mounted)))
  = [ StatusSet "explorer" AgentState.running None;
      Call (RunExplorerBackground 7);
      StatusSet "explorer" AgentState.success (Some "Completed");
      StatusSet "observer" AgentState.running None;
      Call (RunObserverBackground 7);
      StatusSet "observer" AgentState.success (Some "Completed");
      StatusSet "architect" AgentState.running None;
      Call (RunArchitectBackground 7);
      StatusSet "architect" AgentState.success (Some "Completed");
      StatusSet "gardener" AgentState.running None;
      Call (RunGardenerBackground 7);
      StatusSet "gardener" AgentState.success (Some "Completed");
      StatusSet "partitioner" AgentState.running None;
      Call (RunPartitionerBackground 7);
      StatusSet "partitioner" AgentState.success (Some "Completed") ].
Proof.
  refine (eq_trans
            (proj1 (run_all_executes_five_agents_in_order Scenario.props7
                      Scenario.allComplete mounted eq_refl)) _).
  by vm_compute.
Defined.

(** C8, as stated, fails when a job outlives the client's patience: the
    explorer's job is found running by every poll and never reaches a
    terminal status, yet after 600 polls the observer's job is started,
    and then the remaining three. *)
Lemma next_job_started_while_previous_still_running :
  startJob Scenario.explorerStuck (RunExplorerBackground 7) = Ok "job-explorer"
  ∧ (∀ n, ∃ j, getJob Scenario.explorerStuck "job-explorer" n = Ok j ∧ status j = running)
  ∧ List.filter singleAgentStart
      (requests (trace (snd (pressRunAll Scenario.props7 Scenario.explorerStuck mounted))))
    = [ RunExplorerBackground 7; RunObserverBackground 7; RunArchitectBackground 7;
        RunGardenerBackground 7; RunPartitionerBackground 7 ]
  ∧ polls (trace (snd (pressRunAll Scenario.props7 Scenario.explorerStuck mounted)))
    = 604%nat.
Proof.
  split; [reflexivity|]. split; [|by vm_compute].
  intros n. eexists. split; reflexivity.
Qed.

(** C8, as the code has it.  A run of all agents never sends a request
    for the backend's five-step pipeline.  It sends the five single-agent
    start requests, in order; every poll it sends addresses the job the
    latest start returned, and its trace is one segment per agent, in
    which the start request is followed by the polls of the job it
    returned, to the end of that polling, before the agent is settled and
    the next start is sent.  [pollJobStatus] sends nothing but polls of
    its job and sleeps, and ends with the first poll that is not answered
    by a pending or running job (a terminal job or a failed request), as
    the last poll it sends, or by giving up after 600 polls that all
    found the job pending or running.  [startAgentJob] throws for every
    name outside the five. *)
Theorem run_all_starts_single_agent_jobs_in_turn
    (props : AgentPanelProps) (w : World) (s : St Panel) :
  shouldStop (comp s) = false →
  List.filter pipelineRequest
    (requests (added (trace s) (trace (snd (pressRunAll props w s))))) = []
  ∧ List.filter singleAgentStart
      (requests (added (trace s) (trace (snd (pressRunAll props w s)))))
    = fiveStarts props
  ∧ pollsLatestJob w None (added (trace s) (trace (snd (pressRunAll props w s))))
  ∧ (∃ segs,
       added (trace s) (trace (snd (pressRunAll props w s)))
       = concat segs ++ completionEvents props
       ∧ Forall2 (agentSegment props w)
                 ["explorer"; "observer"; "architect"; "gardener"; "partitioner"] segs)
  ∧ (∀ jobId agentId s0,
       ∃ t, trace (snd (pollJobStatus w jobId agentId s0)) = trace s0 ++ t
         ∧ Forall (pollEvent (Some jobId)) t
         ∧ PollingEnds w jobId agentId (polls t) (fst (pollJobStatus w jobId agentId s0)))
  ∧ (∀ agentId s0,
       agentId ∉ map agent_id agents →
       startAgentJob props w agentId s0
       = (Throw (JsError ("Unknown agent: " +:+ agentId)), s0)).
Proof.
  intros Hstop. rewrite pressRunAll_unset by done.
  destruct (runAll_requests props w s) as (Hstarts & Hpipe & Hlatest).
  split; [done|]. split; [done|]. split; [done|].
  split; [apply runAll_segments|]. split.
  - intros jobId agentId s0. apply pollJobStatus_polling_ends.
  - intros agentId s0 Hnot. unfold startAgentJob.
    destruct (startRequest props agentId) as [r|] eqn:Hr; [|done].
    exfalso. apply Hnot, (startRequest_known props). eauto.
Qed.

Lemma run_all_starts_single_agent_jobs_in_turn_witness :
  List.filter pipelineRequest
    (requests (added (trace mounted)
                 (trace (snd (pressRunAll Scenario.props7 Scenario.explorerStuck mounted)))))
  = [].
Proof.
  exact (proj1 (run_all_starts_single_agent_jobs_in_turn Scenario.props7
                  Scenario.explorerStuck mounted eq_refl)).
Defined.

End RunAllClaims.

(** * Further properties of the modelled code *)

(** ** The activity page *)

Section ActivityHelpers.
Import ActivityPage.
Variable getTime : string -> Z.

Lemma append_nonempty (a b : string) : a ≠ "" → a +:+ b ≠ "".
Proof. destruct a; [done|]. by simpl. Qed.

Lemma str_or_nonempty (e : option string) (d : string) : d ≠ "" → str_or e d ≠ "".
Proof.
  intros Hd. destruct e as [m|]; simpl; [|done].
  by destruct (String.eqb_spec m "").
Qed.

(** The three shapes of a duration, by its length [d] in milliseconds:
    whole seconds below a minute, minutes and seconds below an hour, hours
    and minutes from there on; the minor unit stays below 60. *)
Theorem formatDuration_by_length (s : string) (endStr : option string) (now d : Z) :
  s ≠ "" →
  d = (if str_truthy endStr then getTime (default "" endStr) else now) - getTime s →
  (d < 60000 → formatDuration getTime (Some s) endStr now = pretty (d / 1000) +:+ "s")
  ∧ (60000 ≤ d < 3600000 →
     formatDuration getTime (Some s) endStr now
     = pretty (d / 60000) +:+ "m " +:+ pretty ((d / 1000) `mod` 60) +:+ "s"
     ∧ 1 ≤ d / 60000 < 60 ∧ 0 ≤ (d / 1000) `mod` 60 < 60)
  ∧ (3600000 ≤ d →
     formatDuration getTime (Some s) endStr now
     = pretty (d / 3600000) +:+ "h " +:+ pretty ((d / 60000) `mod` 60) +:+ "m"
     ∧ 1 ≤ d / 3600000 ∧ 0 ≤ (d / 60000) `mod` 60 < 60).
Proof.
  intros Hs Hd. unfold formatDuration.
  assert (str_truthy (Some s) = true) as -> by (simpl; by destruct (String.eqb_spec s "")).
  cbn [negb]. change (default "" (Some s)) with s. rewrite <- Hd. clear Hd.
  assert (d / 1000 / 60 = d / 60000) as Hmin by (rewrite Z.div_div by lia; done).
  assert (d / 1000 / 60 / 60 = d / 3600000) as Hhour
    by (rewrite !Z.div_div by lia; done).
  rewrite Hhour, Hmin.
  split; [|split].
  - intros Hlt.
    assert (d / 3600000 ≤ 0) by (apply Z.lt_succ_r, Z.div_lt_upper_bound; lia).
    assert (d / 60000 ≤ 0) by (apply Z.lt_succ_r, Z.div_lt_upper_bound; lia).
    by rewrite !(proj2 (Z.ltb_ge _ _)) by lia.
  - intros [Hlo Hhi].
    assert (d / 3600000 ≤ 0) by (apply Z.lt_succ_r, Z.div_lt_upper_bound; lia).
    assert (1 ≤ d / 60000) by (apply Z.div_le_lower_bound; lia).
    assert (d / 60000 < 60) by (apply Z.div_lt_upper_bound; lia).
    assert (0 ≤ d / 1000) by (apply Z.div_pos; lia).
    rewrite (proj2 (Z.ltb_ge 0 (d / 3600000))), (proj2 (Z.ltb_lt 0 (d / 60000))) by lia.
    rewrite Z.rem_mod_nonneg by lia.
    split; [done|]. split; [lia|]. apply Z.mod_pos_bound. lia.
  - intros Hlo.
    assert (1 ≤ d / 3600000) by (apply Z.div_le_lower_bound; lia).
    assert (0 ≤ d / 60000) by (apply Z.div_pos; lia).
    rewrite (proj2 (Z.ltb_lt 0 (d / 3600000))) by lia.
    rewrite Z.rem_mod_nonneg by lia.
    split; [done|]. split; [lia|]. apply Z.mod_pos_bound. lia.
Qed.

Lemma length_append (x y : string) :
  String.length (x +:+ y) = (String.length x + String.length y)%nat.
Proof. induction x as [|c x IH]; simpl; [done|]. by rewrite IH. Qed.

Lemma append_not_dash (x y : string) : (2 ≤ String.length y)%nat → x +:+ y ≠ "-".
Proof.
  intros Hy He. assert (String.length (x +:+ y) = 1%nat) as Hl by (by rewrite He).
  rewrite length_append in Hl. lia.
Qed.

Lemma seconds_not_dash (x : string) : x +:+ "s" ≠ "-".
Proof.
  destruct x as [|a x]; simpl; [done|].
  intros [= _ He]. by destruct x.
Qed.

(** A job row always shows a duration, measured from [created_at] while
    the job has not started: the placeholder is never shown for a job whose
    [created_at] is set. *)
Theorem jobDuration_never_placeholder (job : Job) (now : Z) :
  Api.created_at job ≠ "" →
  jobDuration getTime job now ≠ "-"
  ∧ (Api.started_at job = None →
     jobDuration getTime job now
     = formatDuration getTime (Some (Api.created_at job)) (Api.completed_at job) now).
Proof.
  intros Hc. split.
  - unfold jobDuration, formatDuration.
    assert (str_truthy (Some (str_or (Api.started_at job) (Api.created_at job))) = true)
      as ->.
    { simpl.
      destruct (String.eqb_spec (str_or (Api.started_at job) (Api.created_at job)) "")
        as [He|]; [|done]. by apply str_or_nonempty in He. }
    cbn [negb].
    repeat match goal with |- context [if ?b then _ else _] => destruct b end.
    all: first [by apply seconds_not_dash | apply append_not_dash; simpl; lia].
  - intros Hn. unfold jobDuration. rewrite Hn. simpl.
    by destruct (String.eqb_spec (Api.created_at job) "").
Qed.

End ActivityHelpers.

Section DatabaseNames.
Import ActivityPage.

(** The label of a database: 'System' without an id (null or 0), the name
    of the first loaded database with that id when it has one, else
    'DB <id>'; the label is never empty. *)
Theorem getDatabaseName_label (databases : list ApiData.Database) (dbId : option Z) :
  getDatabaseName databases dbId ≠ ""
  ∧ (dbId = None ∨ dbId = Some 0 → getDatabaseName databases dbId = "System")
  ∧ (∀ n pre d post,
       dbId = Some n → n ≠ 0 → databases = pre ++ d :: post →
       ApiData.id d = n → (∀ x, x ∈ pre → ApiData.id x ≠ n) → ApiData.name d ≠ "" →
       getDatabaseName databases dbId = ApiData.name d)
  ∧ (∀ n, dbId = Some n → n ≠ 0 → (∀ x, x ∈ databases → ApiData.id x ≠ n) →
       getDatabaseName databases dbId = "DB " +:+ pretty n).
Proof.
  split; [|split; [|split]].
  - destruct dbId as [n|]; simpl; [|done].
    destruct (n =? 0); [done|]. by apply str_or_nonempty.
  - intros [->| ->]; reflexivity.
  - intros n pre d post -> Hn -> Hid Hpre Hname. simpl.
    rewrite (proj2 (Z.eqb_neq n 0) Hn).
    assert (List.find (fun x => ApiData.id x =? n) (pre ++ d :: post) = Some d) as ->.
    { induction pre as [|x pre IH]; simpl.
      - by rewrite (proj2 (Z.eqb_eq _ _) Hid).
      - rewrite (proj2 (Z.eqb_neq _ _) (Hpre x ltac:(left))).
        apply IH. intros y Hy. apply Hpre. by right. }
    simpl. by destruct (String.eqb_spec (ApiData.name d) "").
  - intros n -> Hn Hnone. simpl. rewrite (proj2 (Z.eqb_neq n 0) Hn).
    assert (List.find (fun x => ApiData.id x =? n) databases = None) as ->; [|done].
    induction databases as [|x l IH]; simpl; [done|].
    rewrite (proj2 (Z.eqb_neq _ _) (Hnone x ltac:(left))).
    apply IH. intros y Hy. apply Hnone. by right.
Qed.

End DatabaseNames.

(** ** Maintenance tasks *)

Section Maintenance.
Import ApiData MaintenanceTasks.

(** The three priority badges count disjoint tasks: together they never
    exceed the header's total, and reach it exactly when every task's
    priority is one of 'high', 'medium', 'low'. *)
Theorem priority_badges_partition (tasks : list MaintenanceTask) :
  (length (highPriority tasks) + length (mediumPriority tasks)
   + length (lowPriority tasks) ≤ length tasks)%nat
  ∧ ((length (highPriority tasks) + length (mediumPriority tasks)
      + length (lowPriority tasks) = length tasks)%nat
     ↔ Forall (fun t => priority t = "high" ∨ priority t = "medium" ∨ priority t = "low")
              tasks).
Proof.
  unfold highPriority, mediumPriority, lowPriority.
  induction tasks as [|t tasks [IHle IHeq]]; [split; [done | split; [constructor | done]]|].
  rewrite !filter_cons.
  destruct (decide (priority t = "high")) as [Hh|Hh];
    destruct (decide (priority t = "medium")) as [Hm|Hm];
    destruct (decide (priority t = "low")) as [Hl|Hl];
    try (rewrite Hh in Hm; discriminate);
    try (rewrite Hh in Hl; discriminate);
    try (rewrite Hm in Hl; discriminate);
    simpl length.
  all: split; [lia|].
  all: rewrite Forall_cons.
  all: split; [intros He | intros [Ht Hall]].
  all: try (split; [tauto|apply IHeq; lia]).
  all: try (apply IHeq in Hall; lia).
  all: exfalso; first [tauto | lia].
Qed.

End Maintenance.

Lemma formatDuration_by_length_witness :
  ActivityPage.formatDuration Scenario.getTime (Some "2025-01-01T09:59:59")
    (Some "2025-01-01T10:00:00") 0
  = "1s".
Proof.
  refine (eq_trans
            (proj1 (formatDuration_by_length Scenario.getTime "2025-01-01T09:59:59"
                      (Some "2025-01-01T10:00:00") 0 1000 _ _) _) _).
  - done.
  - reflexivity.
  - lia.
  - by vm_compute.
Defined.

Lemma jobDuration_never_placeholder_witness :
  ActivityPage.jobDuration Scenario.getTime Scenario.completedJob 1735725695000 ≠ "-".
Proof.
  refine (proj1 (jobDuration_never_placeholder Scenario.getTime Scenario.completedJob
                   1735725695000 _)).
  done.
Defined.

(** ** The polling hooks *)

Section HookFlags.

(** The three flags of [useJobPolling] exclude each other, and a
    cancelled job, like no job at all, raises none of them. *)
Theorem polling_flags_exclusive (job : option Job) :
  (isRunning job = true → isComplete job = false ∧ isFailed job = false)
  ∧ (isComplete job = true → isRunning job = false ∧ isFailed job = false)
  ∧ (isFailed job = true → isRunning job = false ∧ isComplete job = false)
  ∧ (isRunning job = false ∧ isComplete job = false ∧ isFailed job = false
     ↔ job = None ∨ ∃ j, job = Some j ∧ status j = cancelled).
Proof.
  destruct job as [j|]; simpl.
  - destruct (status j) eqn:Hst; simpl.
    all: repeat split; try done.
    all: try (intros _; right; by exists j).
    all: try (by intros (? & ? & ?)).
    all: match goal with
         | H : _ ∨ _ |- _ => destruct H as [?|(j' & [= <-] & ?)]; congruence
         end.
  - repeat split; try done. intros _. by left.
Qed.

End HookFlags.

Section FetchJobMore.
Import JobPolling.

(** Once the component is unmounted the hook is inert: a fetch started
    after the unmount sends nothing, and one whose answer arrives after
    the unmount changes neither [job] nor [error], leaves the timer alone
    and invokes no callback, whatever the answer is. *)
Theorem fetchJob_inert_after_unmount
    (jobId : option string) (options : UseJobPollingOptions) (response : Outcome Job)
    (after : bool) (h : Hook) :
  mountedRef h = false ∨ after = false →
  callbacks (fetchJob jobId options response after h) = []
  ∧ cleared (fetchJob jobId options response after h) = false
  ∧ settledAs (fetchJob jobId options response after h) = Ok tt
  ∧ job (hook (fetchJob jobId options response after h)) = job h
  ∧ error (hook (fetchJob jobId options response after h)) = error h
  ∧ intervalRef (hook (fetchJob jobId options response after h)) = intervalRef h
  ∧ (mountedRef h = false → requested (fetchJob jobId options response after h) = false).
Proof.
  intros Hun. unfold fetchJob.
  destruct (negb (str_truthy jobId) || negb (mountedRef h)) eqn:Hgate; [done|].
  apply orb_false_elim in Hgate as [_ Hm]. apply negb_false_iff in Hm.
  destruct Hun as [Hun| ->]; [congruence|].
  destruct response as [jobData|err]; unfold caught; simpl.
  all: repeat split; try done; intros; congruence.
Qed.

(** While mounted, the hook stops polling exactly when the job it
    fetched is terminal, and it always shows the job it fetched with the
    previous error cleared (unless a callback threw). *)
Theorem fetchJob_stops_iff_terminal
    (jobId : string) (options : UseJobPollingOptions) (jobData : Job) (h : Hook) :
  jobId ≠ "" →
  mountedRef h = true →
  cleared (fetchJob (Some jobId) options (Ok jobData) true h) = terminal (status jobData)
  ∧ intervalRef (hook (fetchJob (Some jobId) options (Ok jobData) true h))
    = (if terminal (status jobData) then false else intervalRef h)
  ∧ job (hook (fetchJob (Some jobId) options (Ok jobData) true h)) = Some jobData
  ∧ (settledAs (fetchJob (Some jobId) options (Ok jobData) true h) = Ok tt →
     (∀ f, onComplete options = Some f → status jobData = completed → f jobData = Ok tt) →
     (∀ f, onError options = Some f → status jobData = failed →
           f (str_or (Api.error jobData) "Job failed") = Ok tt) →
     error (hook (fetchJob (Some jobId) options (Ok jobData) true h)) = None).
Proof.
  intros Hid Hm. unfold fetchJob.
  rewrite (fetchJob_proceeds jobId Hid), Hm. cbn [negb orb].
  assert (∀ err h' done,
            mountedRef h' = true → intervalRef h' = false →
            let r := caught options err h' true done in
            cleared r = true ∧ intervalRef (hook r) = false ∧ job (hook r) = job h')
    as Hcaught.
  { intros err h' done Hm' Hi'. unfold caught, invoke. rewrite Hm'. simpl.
    destruct (onError options) as [f|]; simpl.
    - destruct (f _); simpl; unfold stopPolling; simpl; by rewrite ?Hi'.
    - unfold stopPolling. simpl. by rewrite Hi'. }
  destruct (status jobData) eqn:Hst; simpl.
  - done.
  - done.
  - unfold invoke. destruct (onComplete options) as [f|] eqn:Hf; simpl.
    + destruct (f jobData) as [|err] eqn:Hthrow; simpl.
      * repeat split; try done; try apply stopPolling_clears.
        all: unfold stopPolling; simpl; by destruct (intervalRef h).
      * destruct (Hcaught err
                    (stopPolling (mkHook (Some jobData) (loading h) None (intervalRef h) true))
                    [OnComplete jobData]) as (H1 & H2 & H3).
        { by rewrite stopPolling_mounted. }
        { apply stopPolling_clears. }
        repeat split; try done.
        -- rewrite H3. unfold stopPolling. simpl. by destruct (intervalRef h).
        -- intros _ Hok _. specialize (Hok f eq_refl eq_refl). congruence.
    + repeat split; try done; try apply stopPolling_clears.
      all: unfold stopPolling; simpl; by destruct (intervalRef h).
  - unfold invoke. destruct (onError options) as [f|] eqn:Hf; simpl.
    + destruct (f _) as [|err] eqn:Hthrow; simpl.
      * repeat split; try done; try apply stopPolling_clears.
        all: unfold stopPolling; simpl; by destruct (intervalRef h).
      * destruct (Hcaught err
                    (stopPolling (mkHook (Some jobData) (loading h) None (intervalRef h) true))
                    [OnError (str_or (Api.error jobData) "Job failed")]) as (H1 & H2 & H3).
        { by rewrite stopPolling_mounted. }
        { apply stopPolling_clears. }
        repeat split; try done.
        -- rewrite H3. unfold stopPolling. simpl. by destruct (intervalRef h).
        -- intros _ _ Hok. specialize (Hok f eq_refl eq_refl). congruence.
    + repeat split; try done; try apply stopPolling_clears.
      all: unfold stopPolling; simpl; by destruct (intervalRef h).
  - repeat split; try done; try apply stopPolling_clears.
    all: unfold stopPolling; simpl; by destruct (intervalRef h).
Qed.

End FetchJobMore.

Section MultipleJobsProps.
Import MultipleJobs.

Lemma fetch_fold (f : nat → string → option Job) (jobIds : list string) :
  ∀ (m : gmap string Job) (k : nat),
    NoDup jobIds →
    ∀ jobId,
      (∀ i, jobIds !! i = Some jobId →
            foldl keep m (zip jobIds (imap (fun i x => f (k + i)%nat x) jobIds)) !! jobId
            = match f (k + i)%nat jobId with
              | Some j => Some j
              | None => m !! jobId
              end)
      ∧ (jobId ∉ jobIds →
         foldl keep m (zip jobIds (imap (fun i x => f (k + i)%nat x) jobIds)) !! jobId
         = m !! jobId).
Proof.
  induction jobIds as [|x l IH]; intros m k Hnd jobId.
  - split; [intros i Hi; by rewrite lookup_nil in Hi | done].
  - apply NoDup_cons in Hnd as [Hx Hnd]. simpl.
    assert (imap ((fun i y => f (k + i)%nat y) ∘ S) l
            = imap (fun i y => f (S k + i)%nat y) l) as ->.
    { apply imap_ext. intros i y _. simpl. f_equal. lia. }
    destruct (IH (keep m (x, f (k + 0)%nat x)) (S k) Hnd jobId) as [IHin IHout].
    split.
    + intros [|i] Hi; simpl in Hi.
      * injection Hi as ->. rewrite IHout by done.
        unfold keep. simpl. destruct (f (k + 0)%nat jobId); [by rewrite lookup_insert_eq | done].
      * rewrite (IHin i Hi). replace (S k + i)%nat with (k + S i)%nat by lia.
        destruct (f (k + S i)%nat jobId); [done|].
        unfold keep. simpl.
        assert (x ≠ jobId) by (intros ->; apply Hx; by eapply list_elem_of_lookup_2).
        destruct (f (k + 0)%nat x); [by rewrite lookup_insert_ne | done].
    + intros Hnot. apply not_elem_of_cons in Hnot as [Hne Hnot].
      rewrite IHout by done. unfold keep. simpl.
      destruct (f (k + 0)%nat x); [by rewrite lookup_insert_ne | done].
Qed.

(** After [fetchJobs] over distinct ids, [getJob(id)] is the job fetched
    for that id when its request succeeded and undefined when it failed;
    a failed request does not affect the other jobs, and jobs of ids no
    longer asked for are dropped.  With no ids nothing is updated. *)
Theorem fetchJobs_per_job
    (jobIds : list string) (respond : nat → string → Outcome Job) (h : Hook) :
  NoDup jobIds →
  jobIds ≠ [] →
  (∀ i jobId, jobIds !! i = Some jobId →
     getJob (fetchJobs jobIds respond h) jobId = orNull (respond i jobId))
  ∧ (∀ jobId, jobId ∉ jobIds → getJob (fetchJobs jobIds respond h) jobId = None)
  ∧ loading (fetchJobs jobIds respond h) = false
  ∧ fetchJobs [] respond h = h.
Proof.
  intros Hnd Hne.
  assert (fetchJobs jobIds respond h
          = mkHook (foldl keep ∅
                      (zip jobIds (imap (fun i x => orNull (respond i x)) jobIds)))
                   false) as ->.
  { destruct jobIds; [done|]. reflexivity. }
  unfold getJob. cbn [jobs loading].
  assert (∀ jobId,
            (∀ i, jobIds !! i = Some jobId →
               foldl keep ∅ (zip jobIds (imap (fun i x => orNull (respond i x)) jobIds))
                 !! jobId = orNull (respond i jobId))
            ∧ (jobId ∉ jobIds →
               foldl keep ∅ (zip jobIds (imap (fun i x => orNull (respond i x)) jobIds))
                 !! jobId = None)) as Hfold.
  { intros jobId.
    destruct (fetch_fold (fun i x => orNull (respond i x)) jobIds ∅ 0 Hnd jobId)
      as [Hin Hout].
    simpl in Hin, Hout. split.
    - intros i Hi. rewrite (Hin i Hi). by destruct (orNull (respond i jobId)).
    - intros Hnot. by rewrite Hout. }
  split; [|split; [|done]].
  - intros i jobId Hi. by apply Hfold.
  - intros jobId Hnot. by apply Hfold.
Qed.

End MultipleJobsProps.

Lemma fetchJob_inert_after_unmount_witness :
  JobPolling.callbacks
    (JobPolling.fetchJob (Some "job-1") Scenario.plainCallbacks (Ok Scenario.completedJob)
       false Scenario.polling) = [].
Proof.
  refine (proj1 (fetchJob_inert_after_unmount (Some "job-1") Scenario.plainCallbacks
                   (Ok Scenario.completedJob) false Scenario.polling _)).
  by right.
Defined.

Lemma fetchJob_stops_iff_terminal_witness :
  JobPolling.cleared
    (JobPolling.fetchJob (Some "job-1") Scenario.plainCallbacks (Ok Scenario.completedJob)
       true Scenario.polling) = true.
Proof.
  refine (proj1 (fetchJob_stops_iff_terminal "job-1" Scenario.plainCallbacks
                   Scenario.completedJob Scenario.polling _ _)).
  - done.
  - reflexivity.
Defined.

Lemma fetchJobs_per_job_witness :
  MultipleJobs.getJob
    (MultipleJobs.fetchJobs ["job-1"; "job-2"] Scenario.secondMissing Scenario.noJobs) "job-2"
  = None.
Proof.
  refine (proj1 (fetchJobs_per_job ["job-1"; "job-2"] Scenario.secondMissing Scenario.noJobs
                   _ _) 1%nat "job-2" _).
  - apply (bool_decide_unpack _). by vm_compute.
  - done.
  - reflexivity.
Defined.

(** ** The API cache across calls *)

Section CacheMore.
Context {T : Type}.
Import UseApi.
Implicit Types (c : gmap string (Entry T)) (env : Env T) (st : UseApiState T)
               (options : UseApiOptions T).

(** A result stored by one call is served to the next call under the same
    key for as long as less than [cacheTTL] has passed since it was
    stored, without a second request; from then on the next call asks the
    backend again. *)
Theorem cache_store_then_lookup options env1 env2 c st1 st2 key d :
  cacheKey options = Some key →
  key ≠ "" →
  fresh options (nowAtCheck env1) c = None →
  apiCall env1 = Ok d →
  mountedAfter env1 = true →
  (nowAtCheck env2 - nowAtStore env1 < default DEFAULT_CACHE_TTL (cacheTTL options) →
   called (execute options env2 (cache (execute options env1 c st1)) st2) = false
   ∧ returned (execute options env2 (cache (execute options env1 c st1)) st2) = Ok (Some d)
   ∧ callbacks (execute options env2 (cache (execute options env1 c st1)) st2) = [])
  ∧ (default DEFAULT_CACHE_TTL (cacheTTL options) ≤ nowAtCheck env2 - nowAtStore env1 →
     called (execute options env2 (cache (execute options env1 c st1)) st2) = true).
Proof.
  intros Hkey Hne Hmiss Hd Hm.
  rewrite (execute_miss_stores options env1 c st1 key d) by done.
  split.
  - intros Hage.
    by rewrite (execute_hit options env2 _ st2 key (mkEntry d (nowAtStore env1)))
      by (done || apply lookup_insert_eq).
  - intros Hold. apply execute_miss_calls.
    apply (fresh_miss options _ _ key Hkey). right.
    exists (mkEntry d (nowAtStore env1)). split; [apply lookup_insert_eq | done].
Qed.

(** A call touches no entry but its own: every other key keeps its
    entry, and a call without a key (none, or the empty string) leaves the
    whole cache as it is and always asks the backend. *)
Theorem execute_frame options env c st :
  (∀ k, cacheKey options ≠ Some k → cache (execute options env c st) !! k = c !! k)
  ∧ (str_truthy (cacheKey options) = false →
     cache (execute options env c st) = c ∧ called (execute options env c st) = true).
Proof.
  assert (∀ err c' st' done, cache (caught options env err c' st' done) = c') as Hcaught.
  { intros. apply caught_called. }
  split.
  - intros k Hk. unfold execute.
    destruct (fresh options (nowAtCheck env) c); [done|].
    destruct (apiCall env) as [d|err]; [|by rewrite Hcaught].
    destruct (mountedAfter env); [|done]. cbn [negb].
    assert ((if str_truthy (cacheKey options)
             then <[default "" (cacheKey options) := mkEntry d (nowAtStore env)]> c
             else c) !! k = c !! k) as Hother.
    { destruct (cacheKey options) as [key|]; [|done]. simpl.
      destruct (negb (String.eqb key "")); [|done].
      rewrite lookup_insert_ne; [done|]. congruence. }
    unfold invoke. destruct (onSuccess options) as [f|]; [|done].
    destruct (f d); [done|]. by rewrite Hcaught.
  - intros Hno. unfold execute, fresh. rewrite Hno.
    destruct (apiCall env) as [d|err]; [|split; [apply Hcaught | apply caught_called]].
    destruct (mountedAfter env); [|done]. cbn [negb].
    unfold invoke. destruct (onSuccess options) as [f|]; [|done].
    destruct (f d); [done|]. split; [apply Hcaught | apply caught_called].
Qed.

(** A failed call is never cached, and a mounted component sees it
    rejected with the very error the call threw (unless its own [onError]
    throws), after [onError] received the message. *)
Theorem execute_failure_not_cached options env c st err :
  fresh options (nowAtCheck env) c = None →
  apiCall env = Throw err →
  cache (execute options env c st) = c
  ∧ (mountedAfter env = true →
     error (hookState (execute options env c st))
     = Some (error_message err "An error occurred")
     ∧ loading (hookState (execute options env c st)) = false
     ∧ st_data (hookState (execute options env c st)) = st_data st
     ∧ (∀ f, onError options = Some f →
          head (callbacks (execute options env c st))
          = Some (OnError (error_message err "An error occurred")))
     ∧ ((∀ f, onError options = Some f → f (error_message err "An error occurred") = Ok tt) →
        returned (execute options env c st) = Throw err)).
Proof.
  intros Hmiss Herr. unfold execute. rewrite Hmiss, Herr.
  split; [apply caught_called|].
  intros Hm. unfold caught, invoke. rewrite Hm. cbn [negb].
  destruct (onError options) as [f|] eqn:Hf; simpl.
  - destruct (f _) eqn:Hcall; simpl; repeat split; try done.
    intros Hok. specialize (Hok f eq_refl). congruence.
  - repeat split; done.
Qed.

(** When the component unmounts while the call is in flight, the call's
    end is swallowed: no callback runs, the promise resolves to undefined
    even if the call failed, the cache is left alone and the hook stays in
    its loading state. *)
Theorem execute_swallowed_after_unmount options env c st :
  fresh options (nowAtCheck env) c = None →
  mountedAfter env = false →
  callbacks (execute options env c st) = []
  ∧ returned (execute options env c st) = Ok None
  ∧ cache (execute options env c st) = c
  ∧ hookState (execute options env c st) = mkState (st_data st) true None
  ∧ called (execute options env c st) = true.
Proof.
  intros Hmiss Hun. unfold execute. rewrite Hmiss.
  destruct (apiCall env) as [d|err]; [by rewrite Hun|].
  unfold caught. by rewrite Hun.
Qed.

(** Invalidation works: after [clearApiCache(key)], as after
    [clearApiCache()], the next call under that key asks the backend again,
    however fresh the entry was. *)
Theorem cleared_key_is_refetched options env c st key :
  cacheKey options = Some key →
  called (execute options env (clearApiCache (Some key) c) st) = true
  ∧ called (execute options env (clearApiCache None c) st) = true.
Proof.
  intros Hkey. split; apply execute_miss_calls; apply (fresh_miss options _ _ key Hkey);
    left.
  - unfold clearApiCache. destruct (str_truthy (Some key)) eqn:Ht.
    + simpl. apply lookup_delete_eq.
    + apply lookup_empty.
  - apply lookup_empty.
Qed.

End CacheMore.

Lemma cache_store_then_lookup_witness :
  UseApi.returned
    (UseApi.execute Scenario.cached Scenario.later
       (UseApi.cache (UseApi.execute Scenario.cached (Scenario.resolves true) ∅ Scenario.idle))
       Scenario.idle)
  = Ok (Some 5).
Proof.
  refine (proj1 (proj2 (proj1 (cache_store_then_lookup Scenario.cached (Scenario.resolves true)
                                 Scenario.later ∅ Scenario.idle Scenario.idle "databases" 5
                                 _ _ _ _ _) _))).
  - reflexivity.
  - done.
  - by vm_compute.
  - reflexivity.
  - reflexivity.
  - by vm_compute.
Defined.

Lemma execute_failure_not_cached_witness :
  UseApi.cache (UseApi.execute Scenario.cached Scenario.rejects ∅ Scenario.idle) = ∅.
Proof.
  refine (proj1 (execute_failure_not_cached Scenario.cached Scenario.rejects ∅ Scenario.idle
                   (JsError "Network error") _ _)).
  - by vm_compute.
  - reflexivity.
Defined.

Lemma execute_swallowed_after_unmount_witness :
  UseApi.callbacks (UseApi.execute Scenario.cached (Scenario.resolves false) ∅ Scenario.idle)
  = [].
Proof.
  refine (proj1 (execute_swallowed_after_unmount Scenario.cached (Scenario.resolves false) ∅
                   Scenario.idle _ _)).
  - by vm_compute.
  - reflexivity.
Defined.

Lemma cleared_key_is_refetched_witness :
  UseApi.called
    (UseApi.execute Scenario.cached Scenario.later
       (UseApi.clearApiCache (Some "databases")
          (UseApi.cache (UseApi.execute Scenario.cached (Scenario.resolves true) ∅
                           Scenario.idle)))
       Scenario.idle)
  = true.
Proof.
  refine (proj1 (cleared_key_is_refetched Scenario.cached Scenario.later _ Scenario.idle
                   "databases" _)).
  reflexivity.
Defined.

(** ** The agent panel: a single agent, Stop, and the buttons *)

Section RunAgent.
Import AgentPanel.
Variable props : AgentPanelProps.
Variable w : World.

Lemma runAgent_run a s :
  ∃ s' body,
    runAgent props w a s = (Ok tt, s')
    ∧ currentJobId (comp s') = None
    ∧ agentStatus (comp s') = <[a := runAgentStatus props w a]> (agentStatus (comp s))
    ∧ Forall (pollEvent (startRequest props a ≫= startedJob w)) body
    ∧ trace s' = trace s ++ StatusSet a AgentState.running None
                   :: match startRequest props a with Some r => [Call r] | None => [] end
                   ++ body ++ runAgentClosing props w a.
Proof.
  unfold runAgent, runAgentStatus, runAgentClosing.
  unfold bind at 1. rewrite updateAgentStatus_run. cbn [comp trace clock].
  unfold try_catch_finally.
  destruct (startRequest props a) as [r|] eqn:Hr.
  - rewrite (agentOutcome_eq props w a r Hr).
    unfold startAgentJob. rewrite Hr. unfold bind at 1.
    match goal with |- context [await w r (startJob w r) ?s0] =>
      destruct (await_run w r (startJob w r) s0) as (s1 & -> & Hst1 & t1 & Ht1 & F1)
    end.
    cbn [comp trace agentStatus setAgentStatus] in Hst1, Ht1.
    destruct (startJob w r) as [jobId|e] eqn:Hstart.
    + unfold bind at 1. unfold modify at 1.
      set (s2 := mkSt (setCurrentJobId (Some jobId) (comp s1)) (trace s1) (clock s1)).
      unfold bind at 1.
      pose proof (pollLoop_emits w jobId a maxAttempts 0%nat s2) as (Hst3 & t3 & Ht3 & F3).
      pose proof (pollLoop_outcome w jobId a maxAttempts 0%nat s2 mounted) as Ho.
      fold (pollJobStatus w jobId a s2) in *. fold (pollJobStatus w jobId a mounted) in *.
      destruct (pollJobStatus w jobId a s2) as [o s3].
      cbn [fst snd] in Ho, Hst3, Ht3. rewrite <- Ho.
      cbn [comp trace agentStatus setCurrentJobId s2] in Hst3, Ht3.
      assert (Forall (pollEvent (Some r ≫= startedJob w)) (t1 ++ t3)) as Hbody.
      { simpl. unfold startedJob. rewrite Hstart. apply Forall_app. split; [|done].
        eapply Forall_impl; [exact F1|]. apply pollEvent_any. }
      destruct o as [res|e].
      * unfold bind at 1. rewrite updateAgentStatus_run. cbn [comp trace clock].
        rewrite notifyComplete_run. cbn [comp trace clock].
        destruct (onAnalysisComplete props) as [[[]|e']|] eqn:Hcb;
          cbv [default from_option Datatypes.id]; cbv beta iota.
        -- eexists _, (t1 ++ t3). split; [reflexivity|]. cbn [snd comp trace].
           split; [done|]. split; [|split; [done|]].
           ++ cbn [agentStatus setCurrentJobId setAgentStatus].
              by rewrite Hst3, Hst1, insert_insert_eq.
           ++ rewrite Ht3, Ht1. rewrite <- ?app_assoc. simpl. rewrite <- ?app_assoc.
              simpl. by rewrite app_nil_r.
        -- cbv beta iota. rewrite updateAgentStatus_run. cbn [comp trace clock].
           eexists _, (t1 ++ t3). split; [reflexivity|]. cbn [snd comp trace].
           split; [done|]. split; [|split; [done|]].
           ++ cbn [agentStatus setCurrentJobId setAgentStatus].
              by rewrite Hst3, Hst1, !insert_insert_eq.
           ++ rewrite Ht3, Ht1. rewrite <- ?app_assoc. simpl. by rewrite <- ?app_assoc.
        -- eexists _, (t1 ++ t3). split; [reflexivity|]. cbn [snd comp trace].
           split; [done|]. split; [|split; [done|]].
           ++ cbn [agentStatus setCurrentJobId setAgentStatus].
              by rewrite Hst3, Hst1, insert_insert_eq.
           ++ rewrite Ht3, Ht1. rewrite <- ?app_assoc. simpl. rewrite <- ?app_assoc.
              simpl. by rewrite app_nil_r.
      * cbv beta. rewrite updateAgentStatus_run. cbn [comp trace clock].
        eexists _, (t1 ++ t3). split; [reflexivity|]. cbn [snd comp trace].
        split; [done|]. split; [|split; [done|]].
        -- cbn [agentStatus setCurrentJobId setAgentStatus settled].
           by rewrite Hst3, Hst1, insert_insert_eq.
        -- rewrite Ht3, Ht1. rewrite <- ?app_assoc. simpl. by rewrite <- ?app_assoc.
    + cbv beta. rewrite updateAgentStatus_run. cbn [comp trace clock].
      eexists _, t1. split; [reflexivity|]. cbn [snd comp trace].
      split; [done|]. split; [|split].
      * cbn [agentStatus setCurrentJobId setAgentStatus settled].
        by rewrite Hst1, insert_insert_eq.
      * eapply Forall_impl; [exact F1|]. apply pollEvent_any.
      * rewrite Ht1. rewrite <- ?app_assoc. simpl. by rewrite <- ?app_assoc.
  - rewrite (agentOutcome_unknown props w a Hr).
    unfold startAgentJob. rewrite Hr. unfold bind at 1, throw at 1.
    cbv beta. rewrite updateAgentStatus_run. cbn [comp trace clock].
    eexists _, []. split; [reflexivity|]. cbn [snd comp trace].
    split; [done|]. split; [|split; [done|]].
    + cbn [agentStatus setCurrentJobId setAgentStatus settled].
      by rewrite insert_insert_eq.
    + rewrite <- ?app_assoc. simpl. done.
Qed.

End RunAgent.

Section RunAgentProps.
Import AgentPanel.

Lemma requests_cons_call r t : requests (Call r :: t) = r :: requests t.
Proof. reflexivity. Qed.

Lemma requests_status a st res t : requests (StatusSet a st res :: t) = requests t.
Proof. reflexivity. Qed.

Lemma closing_requests props w a : requests (runAgentClosing props w a) = [].
Proof.
  unfold runAgentClosing, completionEvents.
  destruct (agentOutcome props w a); [|done].
  by destruct (onAnalysisComplete props) as [[|]|].
Qed.

(** Running a single agent never throws.  It leaves the panel without a
    current job and the agent settled as success or error, touches no
    other agent's entry, and sends at most one start request; the
    completion callback is called only after the agent's job completed. *)
Theorem runAgent_settles (props : AgentPanelProps) (w : World) (a : string) (s : St Panel) :
  fst (runAgent props w a s) = Ok tt
  ∧ currentJobId (comp (snd (runAgent props w a s))) = None
  ∧ agentStatus (comp (snd (runAgent props w a s))) !! a = Some (runAgentStatus props w a)
  ∧ (state (runAgentStatus props w a) = AgentState.success
     ∨ state (runAgentStatus props w a) = AgentState.error)
  ∧ (∀ b, b ≠ a →
       agentStatus (comp (snd (runAgent props w a s))) !! b = agentStatus (comp s) !! b)
  ∧ List.filter singleAgentStart
      (requests (added (trace s) (trace (snd (runAgent props w a s)))))
    = match startRequest props a with Some r => [r] | None => [] end
  ∧ (AnalysisComplete ∈ added (trace s) (trace (snd (runAgent props w a s))) →
     ∃ res, agentOutcome props w a = Ok res).
Proof.
  destruct (runAgent_run props w a s) as (s' & body & -> & Hjob & Hst & F & Ht).
  cbn [fst snd]. rewrite Ht, added_app, Hst.
  split; [done|]. split; [done|]. split; [apply lookup_insert_eq|].
  split; [|split; [|split]].
  - unfold runAgentStatus.
    destruct (agentOutcome props w a); [|by right].
    destruct (onAnalysisComplete props) as [[|]|]; simpl; auto.
  - intros b Hb. by rewrite lookup_insert_ne.
  - rewrite requests_status, !requests_app, !List.filter_app, closing_requests.
    destruct (pollEvents_requests _ _ F) as [-> _].
    destruct (startRequest props a) as [r|] eqn:Hr; [|done].
    simpl. by rewrite (proj1 (startRequest_single props a r Hr)).
  - intros Hin. apply elem_of_cons in Hin as [?|Hin]; [done|].
    rewrite !elem_of_app in Hin. destruct Hin as [Hin|[Hin|Hin]].
    + destruct (startRequest props a); [|by apply elem_of_nil in Hin].
      by apply list_elem_of_singleton in Hin.
    + rewrite Forall_forall in F. by apply F in Hin.
    + unfold runAgentClosing in Hin.
      destruct (agentOutcome props w a) as [res|e]; [eauto|].
      by apply list_elem_of_singleton in Hin.
Qed.

(** A name outside the five is settled as an error naming it, without
    a start request or a poll being sent. *)
Theorem runAgent_unknown_agent
    (props : AgentPanelProps) (w : World) (a : string) (s : St Panel) :
  a ∉ map agent_id agents →
  agentStatus (comp (snd (runAgent props w a s))) !! a
  = Some (mkStatus AgentState.error (Some ("Unknown agent: " +:+ a)))
  ∧ List.filter singleAgentStart
      (requests (added (trace s) (trace (snd (runAgent props w a s))))) = []
  ∧ polls (added (trace s) (trace (snd (runAgent props w a s)))) = 0%nat.
Proof.
  intros Hnot.
  assert (startRequest props a = None) as Hr.
  { destruct (startRequest props a) eqn:E; [|done].
    exfalso. apply Hnot, (startRequest_known props). eauto. }
  destruct (runAgent_run props w a s) as (s' & body & -> & _ & Hst & F & Ht).
  cbn [snd]. rewrite Ht, added_app, Hst, lookup_insert_eq.
  unfold runAgentStatus, runAgentClosing in *.
  rewrite (agentOutcome_unknown props w a Hr), Hr in *. simpl in F.
  split; [done|].
  destruct (pollEvents_requests _ _ F) as [Hstarts _].
  pose proof (pollEvents_no_poll _ F) as Hpolls.
  split.
  - rewrite requests_status. simpl. by rewrite requests_app, List.filter_app, Hstarts.
  - change (StatusSet a AgentState.running None :: [] ++ body ++ ?l)
      with ([StatusSet a AgentState.running None] ++ body ++ l).
    by rewrite !polls_app, Hpolls.
Qed.

Lemma runAgent_unknown_agent_witness :
  agentStatus (comp (snd (runAgent Scenario.props7 Scenario.allComplete "analyst" mounted)))
    !! "analyst"
  = Some (mkStatus AgentState.error (Some "Unknown agent: analyst")).
Proof.
  refine (proj1 (runAgent_unknown_agent Scenario.props7 Scenario.allComplete "analyst"
                   mounted _)).
  apply (bool_decide_unpack _). by vm_compute.
Defined.

End RunAgentProps.

Section StopAndWait.
Import AgentPanel.
Variable w : World.

(** Pressing Stop never throws, whatever the cancel request does.  It
    sets the stop flag and asks the backend to cancel the job the panel
    currently tracks, if any, and nothing else. *)
Theorem stopAnalysis_cancels_current (s : St Panel) :
  fst (stopAnalysis w s) = Ok tt
  ∧ shouldStop (comp (snd (stopAnalysis w s))) = true
  ∧ agentStatus (comp (snd (stopAnalysis w s))) = agentStatus (comp s)
  ∧ currentJobId (comp (snd (stopAnalysis w s))) = currentJobId (comp s)
  ∧ requests (added (trace s) (trace (snd (stopAnalysis w s))))
    = match currentJobId (comp s) with
      | Some j => if String.eqb j "" then [] else [CancelJob j]
      | None => []
      end.
Proof.
  unfold stopAnalysis, bind, emit, modify. cbn [comp trace clock currentJobId setShouldStop].
  destruct (currentJobId (comp s)) as [j|] eqn:Hj.
  - destruct (String.eqb j ""); cbn [negb].
    + cbn [fst snd comp trace shouldStop agentStatus currentJobId].
      by rewrite added_app.
    + unfold try_catch_finally, bind, emit, settle, ret.
      cbn [comp trace clock].
      destruct (cancelJob w j) as [[]|e];
        cbn [fst snd comp trace shouldStop agentStatus currentJobId];
        by rewrite <- app_assoc, added_app.
  - cbn [fst snd comp trace shouldStop agentStatus currentJobId]. by rewrite added_app.
Qed.

End StopAndWait.

(** ** The agent panel: how long polling takes *)

Section PollCounts.
Import AgentPanel.
Variable w : World.

Lemma stopEvents_quiet t : Forall stopEvent t → polls t = 0%nat ∧ waited t = 0.
Proof.
  induction 1 as [|e t He _ [IH1 IH2]]; [done|].
  destruct e as [[]| | | | |]; simpl in *; done.
Qed.

Lemma waited_app t1 t2 : waited (t1 ++ t2) = waited t1 + waited t2.
Proof.
  induction t1 as [|e t1 IH]; [done|].
  destruct e; simpl; rewrite ?IH; lia.
Qed.

Lemma suspended_stop_events s :
  ∃ t, trace (snd (suspended w s)) = trace s ++ t ∧ Forall stopEvent t.
Proof.
  unfold suspended. destruct (stopClick w (clock s) && runningAll (comp s)).
  - unfold stopAnalysis, bind, emit, modify.
    cbn [comp trace clock currentJobId setShouldStop].
    destruct (currentJobId (comp s)) as [j|].
    + destruct (String.eqb j ""); cbn [negb].
      * exists [StopPressed]. split; [done|]. by repeat constructor.
      * unfold try_catch_finally, bind, emit, settle, ret.
        cbn [comp trace clock].
        exists [StopPressed; Call (CancelJob j)].
        split; [|by repeat constructor].
        destruct (cancelJob w j) as [[]|e]; cbn [snd trace]; by rewrite <- app_assoc.
    + exists [StopPressed]. split; [done|]. by repeat constructor.
  - exists []. simpl. by rewrite app_nil_r.
Qed.

(** The trace of [await]: the request, then what a press on Stop adds. *)
Lemma await_counts {A} (r : Request) (o : Outcome A) s :
  ∃ s1 t, await w r o s = (o, s1) ∧ trace s1 = trace s ++ Call r :: t
        ∧ polls t = 0%nat ∧ waited t = 0.
Proof.
  unfold await, bind, emit, settle. cbn [comp trace clock].
  destruct (suspended_run w (mkSt (comp s) (trace s ++ [Call r]) (clock s)))
    as (s1 & E1 & _).
  destruct (suspended_stop_events (mkSt (comp s) (trace s ++ [Call r]) (clock s)))
    as (t1 & Ht1 & F1).
  rewrite E1 in Ht1 |- *. cbn [snd trace] in Ht1.
  destruct (stopEvents_quiet t1 F1) as [Hp1 Hw1].
  exists s1, t1. split; [by destruct o|]. by rewrite Ht1, <- app_assoc.
Qed.

Lemma sleep_counts s :
  ∃ s1 t, sleep w pollInterval s = (Ok tt, s1)
        ∧ trace s1 = trace s ++ Sleep pollInterval :: t
        ∧ polls t = 0%nat ∧ waited t = 0.
Proof.
  unfold sleep, bind, emit. cbn [comp trace clock].
  destruct (suspended_run w (mkSt (comp s) (trace s ++ [Sleep pollInterval]) (clock s)))
    as (s1 & E1 & _).
  destruct (suspended_stop_events (mkSt (comp s) (trace s ++ [Sleep pollInterval]) (clock s)))
    as (t1 & Ht1 & F1).
  rewrite E1 in Ht1 |- *. cbn [snd trace] in Ht1.
  destruct (stopEvents_quiet t1 F1) as [Hp1 Hw1].
  exists s1, t1. split; [done|]. by rewrite Ht1, <- app_assoc.
Qed.

(** A loop with [remaining] attempts left: it polls at most [remaining]
    times, sleeps one poll interval after each poll that did not settle
    it, and uses all its attempts when every poll finds the job pending or
    running. *)
Lemma pollLoop_counts jobId agentId remaining :
  ∀ attempt s,
    ∃ t, trace (snd (pollLoop w jobId agentId remaining attempt s)) = trace s ++ t
      ∧ (polls t ≤ remaining)%nat
      ∧ 0 ≤ waited t ≤ pollInterval * Z.of_nat (polls t)
      ∧ (stillPending w jobId attempt remaining →
         polls t = remaining ∧ waited t = pollInterval * Z.of_nat remaining).
Proof.
  induction remaining as [|remaining IH]; intros attempt s.
  - exists []. simpl. rewrite app_nil_r. repeat split; try done; lia.
  - change (pollLoop w jobId agentId (S remaining) attempt s)
      with ((job <- await w (GetJob jobId) (getJob w jobId attempt);;
             match status job with
             | completed =>
                 match result_json job with
                 | Some res => ret (summary agentId res)
                 | None => ret "Completed"
                 end
             | failed => throw (JsError (str_or (Api.error job) "Job failed"))
             | cancelled => throw (JsError "Job cancelled")
             | pending | running =>
                 sleep w pollInterval;;
                 pollLoop w jobId agentId remaining (S attempt)
             end) s).
    unfold bind at 1.
    destruct (await_counts (GetJob jobId) (getJob w jobId attempt) s)
      as (s1 & t1 & -> & Ht1 & Hp1 & Hw1).
    assert (polls (Call (GetJob jobId) :: t1) = 1%nat
            ∧ waited (Call (GetJob jobId) :: t1) = 0) as [Hp1' Hw1'].
    { change (Call (GetJob jobId) :: t1) with ([Call (GetJob jobId)] ++ t1).
      by rewrite polls_app, waited_app, Hp1, Hw1. }
    assert (∃ t, trace s1 = trace s ++ t ∧ (polls t ≤ S remaining)%nat
                 ∧ 0 ≤ waited t ≤ pollInterval * Z.of_nat (polls t)) as Hsettled.
    { exists (Call (GetJob jobId) :: t1). rewrite Hp1', Hw1'.
      split; [done|]. split; [lia|]. unfold pollInterval. lia. }
    assert (∀ j, getJob w jobId attempt = Ok j → terminal (status j) = true →
                 ¬ stillPending w jobId attempt (S remaining)) as Hno.
    { intros j Hj Hterm Hp. destruct (Hp 0%nat) as (j' & Hj' & Hnt); [lia|].
      rewrite Nat.add_0_r in Hj'. congruence. }
    destruct (getJob w jobId attempt) as [job|e] eqn:Hjob.
    + destruct (status job) eqn:Hst.
      3: { destruct Hsettled as (t & Ht & Hle & Hw). exists t.
           split; [by destruct (result_json job)|]. split; [done|]. split; [done|].
           intros Hp. exfalso. eapply Hno; eauto. by rewrite Hst. }
      3: { destruct Hsettled as (t & Ht & Hle & Hw). exists t.
           split; [done|]. split; [done|]. split; [done|].
           intros Hp. exfalso. eapply Hno; eauto. by rewrite Hst. }
      3: { destruct Hsettled as (t & Ht & Hle & Hw). exists t.
           split; [done|]. split; [done|]. split; [done|].
           intros Hp. exfalso. eapply Hno; eauto. by rewrite Hst. }
      all: unfold bind at 1.
      all: destruct (sleep_counts s1) as (s2 & t2 & -> & Ht2 & Hp2 & Hw2).
      all: destruct (IH (S attempt) s2) as (t3 & Ht3 & Hle3 & Hw3 & Hall3).
      all: exists ((Call (GetJob jobId) :: t1) ++ ([Sleep pollInterval] ++ t2) ++ t3).
      all: rewrite !polls_app, !waited_app, Hp1', Hw1', Hp2, Hw2.
      all: change (polls [Sleep pollInterval]) with 0%nat.
      all: change (waited [Sleep pollInterval]) with (pollInterval + 0).
      all: split; [rewrite Ht3, Ht2, Ht1; by rewrite <- !app_assoc|].
      all: split; [simpl; lia|].
      all: split; [unfold pollInterval in *; simpl; lia|].
      all: intros Hp.
      all: assert (stillPending w jobId (S attempt) remaining) as Hp'
             by (intros i Hi; destruct (Hp (S i)) as (j' & Hj' & Hnt'); [lia|];
                 exists j'; split; [|done];
                 by replace (S attempt + i)%nat with (attempt + S i)%nat by lia).
      all: destruct (Hall3 Hp') as [-> ->].
      all: split; [simpl; lia | unfold pollInterval; simpl; lia].
    + destruct Hsettled as (t & Ht & Hle & Hw). exists t.
      split; [done|]. split; [done|]. split; [done|].
      intros Hp. destruct (Hp 0%nat) as (j' & Hj' & _); [lia|].
      rewrite Nat.add_0_r in Hj'. congruence.
Qed.


(** Polling does not retry: the first poll that is not answered with a
    pending or running job settles [pollJobStatus], with the error of a
    failed request as it is, or with the summary of a completed job
    ('Completed' when the job carries no result). *)
Theorem pollJobStatus_no_retry (jobId agentId : string) (k : nat) (s : St Panel) :
  (k < 600)%nat →
  stillPending w jobId 0 k →
  (∀ e, getJob w jobId k = Throw e → fst (pollJobStatus w jobId agentId s) = Throw e)
  ∧ (∀ job, getJob w jobId k = Ok job → status job = completed →
       fst (pollJobStatus w jobId agentId s)
       = Ok (match result_json job with
             | Some res => summary agentId res
             | None => "Completed"
             end))
  ∧ (polls (added (trace s) (trace (snd (pollJobStatus w jobId agentId s)))) ≤ 600)%nat.
Proof.
  intros Hk Hp. rewrite <- panel_maxAttempts in Hk.
  split; [|split].
  - intros e He. by rewrite (pollJobStatus_settles w jobId agentId k s), He.
  - intros job Hj Hst. by rewrite (pollJobStatus_settles w jobId agentId k s), Hj, Hst.
  - destruct (pollLoop_counts jobId agentId maxAttempts 0%nat s) as (t & Ht & Hle & _).
    unfold pollJobStatus. rewrite Ht, added_app. by rewrite panel_maxAttempts in Hle.
Qed.

End PollCounts.

Lemma pollJobStatus_no_retry_witness :
  fst (AgentPanel.pollJobStatus Scenario.architectFails "job-explorer" "explorer"
         AgentPanel.mounted)
  = Ok "3 anomalies found".
Proof.
  refine (eq_trans
            (proj1 (proj2 (pollJobStatus_no_retry Scenario.architectFails "job-explorer"
                             "explorer" 0 AgentPanel.mounted _ _))
               (Scenario.jobIn "job-explorer" "agent" completed None (Some Scenario.counters))
               eq_refl eq_refl) _).
  - lia.
  - intros i Hi. lia.
  - by vm_compute.
Defined.

(** ** The agent panel: what the buttons see after Run All *)

Section AfterRunAll.
Import AgentPanel PanelView.
Variable props : AgentPanelProps.
Variable w : World.

Lemma filter_all {A} (f : A → bool) (l : list A) :
  (∀ x, In x l → f x = true) → List.filter f l = l.
Proof.
  induction l as [|x l IH]; intros H; [done|]. simpl.
  rewrite (H x) by by left. f_equal. apply IH. intros y Hy. apply H. by right.
Qed.

(** A status map in which each of the five agents was written last with a
    success or an error: nothing in it is running, and all five count as
    done. *)
Lemma settled_map_view (f : string → AgentStatus) (p : Panel) :
  agentStatus p
  = foldl (fun m a => <[agent_id a := f (agent_id a)]> m) initialStatus agents →
  (∀ a, state (f a) = AgentState.success ∨ state (f a) = AgentState.error) →
  existsb (fun kv => bool_decide (state kv.2 = AgentState.running))
          (map_to_list (agentStatus p)) = false
  ∧ completedCount p = 5%nat.
Proof.
  intros Hm Hf.
  assert (∀ k v, agentStatus p !! k = Some v →
                 state v = AgentState.success ∨ state v = AgentState.error) as Hall.
  { intros k v. rewrite Hm. unfold initialStatus, agents. cbn [foldl agent_id].
    intros H.
    repeat (let N := fresh "Hne" in
            apply lookup_insert_Some in H as [[_ <-]|[N H]]; [apply Hf|]).
    repeat (apply lookup_insert_Some in H as [[<- _]|[_ H]]; [done|]).
    by rewrite lookup_empty in H. }
  split.
  - destruct (existsb _ _) eqn:E; [|done].
    apply existsb_exists in E as ([k v] & Hin & Hb).
    apply list_elem_of_In, elem_of_map_to_list, Hall in Hin.
    apply bool_decide_eq_true in Hb. simpl in Hb. destruct Hin; congruence.
  - unfold completedCount. rewrite filter_all.
    + rewrite length_map_to_list, <- size_dom, Hm.
      unfold initialStatus, agents. cbn [foldl agent_id].
      rewrite !dom_insert_L, dom_empty_L. by vm_compute.
    + intros [k v] Hin. apply list_elem_of_In, elem_of_map_to_list, Hall in Hin.
      simpl. destruct Hin as [-> | ->]; by rewrite ?orb_true_r.
Qed.

Lemma runAll_map_stopped s :
  agentStatus (comp (snd (runAllAgentsSequentially props w true s)))
  = foldl (fun m a => <[agent_id a := mkStatus AgentState.error (Some "Stopped by user")]> m)
          initialStatus agents
  ∧ runningAll (comp (snd (runAllAgentsSequentially props w true s))) = false
  ∧ shouldStop (comp (snd (runAllAgentsSequentially props w true s))) = false
  ∧ currentStep (comp (snd (runAllAgentsSequentially props w true s))) = -1.
Proof.
  split; [|split; [|split]].
  all: unfold runAllAgentsSequentially.
  all: do 4 (unfold bind at 1; unfold modify at 1).
  all: unfold bind at 1; rewrite runFrom_stopped.
  all: do 3 (unfold bind at 1; unfold modify at 1).
  all: rewrite notifyComplete_run.
  all: cbn [snd trace comp agentStatus setShouldStop setRunningAll setCurrentStep
            setAgentStatus runningAll shouldStop currentStep].
  all: reflexivity.
Qed.

(** The status map a Run All leaves, whatever [shouldStop] it read. *)
Lemma runAll_map stop s :
  ∃ f, agentStatus (comp (snd (runAllAgentsSequentially props w stop s)))
       = foldl (fun m a => <[agent_id a := f (agent_id a)]> m) initialStatus agents
     ∧ (∀ a, state (f a) = AgentState.success ∨ state (f a) = AgentState.error)
     ∧ runningAll (comp (snd (runAllAgentsSequentially props w stop s))) = false
     ∧ shouldStop (comp (snd (runAllAgentsSequentially props w stop s))) = false
     ∧ currentStep (comp (snd (runAllAgentsSequentially props w stop s))) = -1.
Proof.
  destruct stop.
  - exists (fun _ => mkStatus AgentState.error (Some "Stopped by user")).
    destruct (runAll_map_stopped s) as (Hst & Hr & Hs & Hc).
    split; [exact Hst|]. split; [intros _; by right|]. exact (conj Hr (conj Hs Hc)).
  - exists (fun a => settled (agentOutcome props w a)).
    destruct (runAll_run props w s) as (s' & segs & E & Hst & Hr & Hs & Hc & _).
    rewrite E. cbn [snd]. split; [exact Hst|]. split; [|exact (conj Hr (conj Hs Hc))].
    intros a. unfold settled. destruct (agentOutcome props w a); [left | right]; reflexivity.
Qed.

(** When a Run All has finished, with or without the stop flag read as
    set, no agent is left running or pending: [anyRunning] is false, so
    the Run buttons are enabled again, all five agents count as completed,
    and the stop flag and the step marker are reset. *)
Theorem run_all_leaves_no_agent_running (s : St Panel) :
  anyRunning (comp (snd (pressRunAll props w s))) = false
  ∧ completedCount (comp (snd (pressRunAll props w s))) = 5%nat
  ∧ shouldStop (comp (snd (pressRunAll props w s))) = false
  ∧ currentStep (comp (snd (pressRunAll props w s))) = -1.
Proof.
  unfold pressRunAll.
  destruct (runAll_map (shouldStop (comp s)) s) as (f & Hm & Hf & Hr & Hs & Hc).
  destruct (settled_map_view f _ Hm Hf) as [He Hn].
  unfold anyRunning. rewrite He, Hr.
  split; [reflexivity|]. exact (conj Hn (conj Hs Hc)).
Qed.

(** Run All pressed in a render whose [shouldStop] is set starts no
    job: it sends no request and marks each of the five agents as stopped
    by the user. *)
Theorem run_all_with_stop_flag_starts_nothing (s : St Panel) (a : string) :
  shouldStop (comp s) = true →
  a ∈ map agent_id agents →
  requests (added (trace s) (trace (snd (pressRunAll props w s)))) = []
  ∧ agentStatus (comp (snd (pressRunAll props w s))) !! a
    = Some (mkStatus AgentState.error (Some "Stopped by user")).
Proof.
  intros Hs Ha. unfold pressRunAll. rewrite Hs. by apply runAll_flag_set.
Qed.

End AfterRunAll.

Lemma run_all_with_stop_flag_starts_nothing_witness :
  requests (added (trace Scenario.stopFlagSet)
              (trace (snd (AgentPanel.pressRunAll Scenario.props7 Scenario.allComplete
                             Scenario.stopFlagSet))))
  = [].
Proof.
  refine (proj1 (run_all_with_stop_flag_starts_nothing Scenario.props7 Scenario.allComplete
                   Scenario.stopFlagSet "observer" _ _)).
  - reflexivity.
  - apply (bool_decide_unpack _). by vm_compute.
Defined.

(** ** The database page: how [runAnalysis] ends *)

Section RunAnalysisEnds.
Import DatabasePage.
Variable w : World.

(** [runAnalysis] never rejects and never leaves the page analysing:
    without a database id (none, or 0) it does nothing at all; with one it
    first requests the explorer's background job, ends with [analyzing]
    false whatever happened, and when that first request fails it polls
    nothing and shows the request's error. *)
Theorem runAnalysis_always_settles (databaseId : option Z) (s : St Page) :
  fst (runAnalysis databaseId w s) = Ok tt
  ∧ (databaseId = None ∨ databaseId = Some 0 → runAnalysis databaseId w s = (Ok tt, s))
  ∧ (∀ db, databaseId = Some db → db ≠ 0 →
       analyzing (comp (snd (runAnalysis databaseId w s))) = false
       ∧ head (added (trace s) (trace (snd (runAnalysis databaseId w s))))
         = Some (Call (RunExplorerBackground db))
       ∧ (∀ e, startJob w (RunExplorerBackground db) = Throw e →
            error (comp (snd (runAnalysis databaseId w s)))
            = Some (error_message e "Analysis failed")
            ∧ added (trace s) (trace (snd (runAnalysis databaseId w s)))
              = [Call (RunExplorerBackground db)])).
Proof.
  assert (∀ jobId remaining attempt s0,
            ∃ t, trace (snd (pollLoop w jobId remaining attempt s0)) = trace s0 ++ t) as Hloop.
  { intros jobId remaining. induction remaining as [|remaining IH]; intros attempt s0.
    - exists []. simpl. by rewrite app_nil_r.
    - rewrite page_pollLoop_step.
      destruct (getJob w jobId attempt) as [job|e]; [|by eexists].
      destruct (status job); try (by eexists).
      all: destruct (IH (S attempt) (slept (polled jobId s0))) as (t & ->).
      all: unfold slept, polled; cbn [trace]; rewrite <- !app_assoc; by eexists. }
  destruct databaseId as [db|].
  2: { split; [done|]. split; [done|]. intros db [=]. }
  unfold runAnalysis. destruct (Z.eqb_spec db 0) as [->|Hdb].
  { split; [done|]. split; [done|]. by intros ? [= <-] ?. }
  assert (∀ P : Outcome unit * St Page → Prop,
            (∀ e, startJob w (RunExplorerBackground db) = Throw e →
               P (Ok tt, mkSt (mkPage false (Some (error_message e "Analysis failed")))
                              (trace s ++ [Call (RunExplorerBackground db)]) (S (clock s)))) →
            (∀ jobId o t c, startJob w (RunExplorerBackground db) = Ok jobId →
               P (Ok tt, mkSt (mkPage false o)
                              (trace s ++ Call (RunExplorerBackground db) :: t) c)) →
            P ((modify (setAnalyzing true);;
                modify (setError None);;
                try_catch_finally
                  (job_id <- await (RunExplorerBackground db)
                               (startJob w (RunExplorerBackground db));;
                   pollLoop w job_id maxAttempts 0;;
                   emit FetchData)
                  (fun err => modify (setError (Some (error_message err "Analysis failed"))))
                  (modify (setAnalyzing false))) s)) as Hcases.
  { intros P Hfail Hstarted.
    unfold bind at 1, modify at 1, bind at 1, modify at 1, try_catch_finally.
    unfold bind at 1, await at 1, bind at 1, emit at 1, bind at 1, settle at 1.
    cbn [comp trace clock].
    destruct (startJob w (RunExplorerBackground db)) as [jobId|e] eqn:Hstart.
    - unfold bind at 1.
      match goal with |- context [pollLoop w jobId maxAttempts 0 ?s0] =>
        pose proof (page_pollLoop_comp w jobId maxAttempts 0%nat s0) as Hc;
        destruct (Hloop jobId maxAttempts 0%nat s0) as (t & Ht);
        destruct (pollLoop w jobId maxAttempts 0 s0) as [o s1]
      end.
      cbn [snd comp trace clock] in Hc, Ht.
      destruct s1 as [p1 t1 c1]. cbn [comp trace] in Hc, Ht. subst p1 t1.
      destruct o as [[]|err]; unfold emit, modify, setError, setAnalyzing;
        cbn [comp trace clock analyzing error]; rewrite <- ?app_assoc.
      + apply (Hstarted jobId None (t ++ [FetchData]) c1 eq_refl).
      + apply (Hstarted jobId _ t c1 eq_refl).
    - unfold modify, setError, setAnalyzing. cbn [comp trace clock analyzing error].
      by apply Hfail. }
  split; [|split].
  - apply Hcases; done.
  - by intros [|[= ->]].
  - intros db' [= <-] _. split; [|split].
    + apply Hcases; done.
    + apply Hcases; intros; cbn [snd trace]; by rewrite added_app.
    + intros e He. apply Hcases.
      * intros e' He'. cbn [snd comp trace error]. rewrite added_app.
        split; [|done]. congruence.
      * intros jobId o t c Hj. congruence.
Qed.

End RunAnalysisEnds.
